(** * Marches / Music upload pages: the interaction contract

    A shallow embedding of the event handlers of
    [client/src/pages/marches.tsx] (component [MarchesPage]) and of its twin
    page (component [MusicUploadPage]), and the properties of the upload,
    delete and playback handlers.

    The two components are the same text up to the category tag, the asset
    directory, the toast wording and one call site; the embedding is written
    once, over the [PageKind] that tells them apart. *)

From Stdlib Require Import List Bool NArith ZArith String Ascii Lia.
Import ListNotations.

(** ** JavaScript strings

    A JavaScript string is a sequence of UTF-16 code units.  Every string
    operation of the handlers ([trim], [endsWith], [replace] with a regular
    expression without the [u] flag, template literals, [===]) works on code
    units, so that is what a string is here. *)

Module JsString.

Definition unit16 := N.
Definition jsstring := list unit16.

Definition eqb (s t : jsstring) : bool :=
  if list_eq_dec N.eq_dec s t then true else false.

(** Source literals are UTF-8 text; [utf8] decodes the bytes of a literal
    into code points and [units] writes a code point as one code unit or as
    a surrogate pair. *)

Definition units (cp : N) : jsstring :=
  if (cp <? 65536)%N then [cp]
  else [(55296 + (cp - 65536) / 1024)%N; (56320 + (cp - 65536) mod 1024)%N].

Definition cont (b : N) : N := (b mod 64)%N.

Fixpoint utf8 (bs : list N) : jsstring :=
  match bs with
  | [] => []
  | b0 :: r0 =>
    if (b0 <? 128)%N then b0 :: utf8 r0
    else match r0 with
    | [] => [65533%N]
    | b1 :: r1 =>
      if (b0 <? 224)%N then ((b0 mod 32) * 64 + cont b1)%N :: utf8 r1
      else match r1 with
      | [] => [65533%N]
      | b2 :: r2 =>
        if (b0 <? 240)%N
        then ((b0 mod 16) * 4096 + cont b1 * 64 + cont b2)%N :: utf8 r2
        else match r2 with
        | [] => [65533%N]
        | b3 :: r3 =>
          units ((b0 mod 8) * 262144 + cont b1 * 4096 + cont b2 * 64 + cont b3)%N
            ++ utf8 r3
        end
      end
    end
  end.

Definition str (s : string) : jsstring :=
  utf8 (map N_of_ascii (list_ascii_of_string s)).

(** [String.prototype.trim]: the code units that are WhiteSpace or
    LineTerminator in ECMAScript (TAB, LF, VT, FF, CR, SP, NBSP, the
    Unicode space separators, LS, PS and the byte order mark). *)

Definition isWhiteSpace (c : unit16) : bool :=
  ((9 <=? c) && (c <=? 13) || (c =? 32) || (c =? 160) || (c =? 5760)
   || (8192 <=? c) && (c <=? 8202) || (c =? 8232) || (c =? 8233)
   || (c =? 8239) || (c =? 8287) || (c =? 12288) || (c =? 65279))%N.

Fixpoint trimStart (s : jsstring) : jsstring :=
  match s with
  | c :: r => if isWhiteSpace c then trimStart r else s
  | [] => []
  end.

Definition trimEnd (s : jsstring) : jsstring := rev (trimStart (rev s)).

Definition trim (s : jsstring) : jsstring := trimEnd (trimStart s).

(** Truthiness of a string: the empty string is the only falsy one. *)
Definition truthy (s : jsstring) : bool :=
  match s with [] => false | _ :: _ => true end.

(** [s.endsWith(t)]: [t] is no longer than [s] and the last [length t] code
    units of [s] are [t]. *)
Definition endsWith (s t : jsstring) : bool :=
  (List.length t <=? List.length s)%nat
  && eqb (skipn (List.length s - List.length t) s) t.

(** *** [name.replace(/\.[^/.]+$/, "")]

    The pattern is a literal dot, then one or more code units other than
    [/] and [.], then the end of the input.  The matcher is the
    backtracking one of the language: [replace] tries the start positions
    from the left and rewrites the first match. *)

Definition dot : unit16 := 46%N.
Definition slash : unit16 := 47%N.

(** The class [[^/.]]. *)
Definition notSlashDot (c : unit16) : bool :=
  negb (c =? slash)%N && negb (c =? dot)%N.

(** [[^/.]+$] at the current position: one code unit of the class, then,
    greedily, the rest of the repetition, and on failure of that the end
    anchor. *)
Fixpoint matchClassPlusEnd (s : jsstring) : bool :=
  match s with
  | [] => false
  | c :: r =>
    notSlashDot c && (matchClassPlusEnd r || match r with [] => true | _ => false end)
  end.

(** The whole pattern anchored at the current position. *)
Definition matchExtAt (s : jsstring) : bool :=
  match s with
  | c :: r => (c =? dot)%N && matchClassPlusEnd r
  | [] => false
  end.

(** [s.replace(/\.[^/.]+$/, "")]: the first position where the pattern
    matches; the match runs to the end of the input, so what is left is the
    text before it.  Without a match the string is returned as it is. *)
Fixpoint replaceExt (s : jsstring) : jsstring :=
  if matchExtAt s then []
  else match s with
       | [] => []
       | c :: r => c :: replaceExt r
       end.

End JsString.

Import JsString.


(** ** What the page talks to: files, DOM elements, toasts, the network *)

(** A [File] of the file picker: [file.name] and [file.type]. *)
Module File.
Record t := { name : jsstring; type : jsstring }.
End File.

(** A row of the uploaded-files list ([MusicFile] of the shared schema). *)
Module MusicFile.
Record t := {
  id : jsstring;
  name : jsstring;
  originalName : jsstring;
  filename : jsstring
}.
End MusicFile.

(** A row of the favorites list ([FavoriteMarch] / [FavoriteMusic]).  The
    rows come out of a JSON response, so [filename] may be absent at run
    time whatever the declared type says: [None] is [undefined] or [null]. *)
Module Favorite.
Record t := {
  id : jsstring;
  title : jsstring;
  artist : option jsstring;
  description : jsstring;
  filename : option jsstring
}.
End Favorite.

(** The [<audio>] and [<video>] elements: the source and whether the element
    is paused.  [play()] un-pauses, [pause()] pauses. *)
Module Media.
Record t := { src : jsstring; paused : bool }.
Definition setSrc (url : jsstring) (m : t) : t := {| src := url; paused := paused m |}.
Definition play (m : t) : t := {| src := src m; paused := false |}.
Definition pause (m : t) : t := {| src := src m; paused := true |}.
End Media.

(** The [<input type="file">] element, as far as the page writes it. *)
Module Input.
Record t := { value : jsstring }.
End Input.

(** The argument of [toast(...)]. *)
Module Toast.
Record t := {
  title : jsstring;
  description : jsstring;
  variant : option jsstring
}.
Definition destructive (x : t) : bool :=
  match variant x with Some v => JsString.eqb v (str "destructive") | None => false end.
End Toast.

(** A [FormData]: the appended entries in order. *)
Inductive FormEntry :=
| EntryFile (f : File.t)
| EntryString (s : jsstring).

Definition FormData := list (jsstring * FormEntry).

(** Query keys of the query client: an array whose parts are strings or flat
    objects. *)
Inductive KeyPart :=
| KStr (s : jsstring)
| KObj (fields : list (jsstring * jsstring)).

Definition QueryKey := list KeyPart.

(** A query in the client's cache: [active] when a mounted component
    observes it, [isInvalidated] once [invalidateQueries] has hit it,
    [fetchStatus] telling whether a fetch of it is out. *)
Inductive QueryData :=
| NoData
| Files (rows : list MusicFile.t)
| Favorites (rows : list Favorite.t).

(** [fetchStatus] of a query: ['idle'], ['fetching'] or ['paused']. *)
Inductive FetchStatus :=
| FetchIdle
| Fetching
| FetchPaused.

Module Query.
Record t := {
  queryKey : QueryKey;
  data : QueryData;
  active : bool;
  isInvalidated : bool;
  fetchStatus : FetchStatus
}.
Definition invalidate (q : t) : t :=
  {| queryKey := queryKey q; data := data q; active := active q; isInvalidated := true;
     fetchStatus := fetchStatus q |}.
(** A request for the query goes out. *)
Definition fetch (q : t) : t :=
  {| queryKey := queryKey q; data := data q; active := active q;
     isInvalidated := isInvalidated q; fetchStatus := Fetching |}.
(** The fetch that is out completes with data. *)
Definition resolve (d : QueryData) (q : t) : t :=
  {| queryKey := queryKey q; data := d; active := active q; isInvalidated := false;
     fetchStatus := FetchIdle |}.
End Query.

(** What leaves the page during a handler. *)
Inductive Effect :=
| EToast (t : Toast.t)
| EFetch (url method : jsstring) (body : option FormData)
| ERefetch (key : QueryKey).

(** What [fetch] settles to: a rejected promise (transport failure) or a
    response with its status and its body read as JSON ([None] when the body
    does not parse, so that [response.json()] rejects). *)
#[warnings="-register-all"]
Inductive Json :=
| JNull
| JBool (b : bool)
| JNum (z : Z)
| JStr (s : jsstring)
| JArr (items : list Json)
| JObj (fields : list (jsstring * Json)).

Inductive FetchResult :=
| NetworkError
| Response (status : Z) (json : option Json).

(** [response.ok]: the status is in the range 200-299. *)
Definition ok (status : Z) : bool := (200 <=? status)%Z && (status <=? 299)%Z.

Inductive JsError :=
| TypeError (msg : jsstring)
| SyntaxError (msg : jsstring)
| Error (msg : jsstring).

(** ** The component's state

    The [useState] cells and the [useRef] cells of the component, the
    pending flags of its two mutations and the query cache the component
    reads its lists from.  A ref is [None] while no element is attached
    ([ref.current === null]). *)

Record Page := {
  selectedFile : option File.t;
  marchName : jsstring;            (* [musicName] on the Music page *)
  uploading : bool;
  playingAudio : option jsstring;
  playingVideo : option jsstring;
  fileInputRef : option Input.t;
  audioRef : option Media.t;
  videoRef : option Media.t;
  uploadIsPending : bool;
  deleteIsPending : bool;
  queryCache : list Query.t
}.

Definition with_selectedFile (v : option File.t) (p : Page) : Page :=
  {| selectedFile := v; marchName := marchName p; uploading := uploading p;
     playingAudio := playingAudio p; playingVideo := playingVideo p;
     fileInputRef := fileInputRef p; audioRef := audioRef p; videoRef := videoRef p;
     uploadIsPending := uploadIsPending p; deleteIsPending := deleteIsPending p;
     queryCache := queryCache p |}.

Definition with_marchName (v : jsstring) (p : Page) : Page :=
  {| selectedFile := selectedFile p; marchName := v; uploading := uploading p;
     playingAudio := playingAudio p; playingVideo := playingVideo p;
     fileInputRef := fileInputRef p; audioRef := audioRef p; videoRef := videoRef p;
     uploadIsPending := uploadIsPending p; deleteIsPending := deleteIsPending p;
     queryCache := queryCache p |}.

Definition with_playingAudio (v : option jsstring) (p : Page) : Page :=
  {| selectedFile := selectedFile p; marchName := marchName p; uploading := uploading p;
     playingAudio := v; playingVideo := playingVideo p;
     fileInputRef := fileInputRef p; audioRef := audioRef p; videoRef := videoRef p;
     uploadIsPending := uploadIsPending p; deleteIsPending := deleteIsPending p;
     queryCache := queryCache p |}.

Definition with_playingVideo (v : option jsstring) (p : Page) : Page :=
  {| selectedFile := selectedFile p; marchName := marchName p; uploading := uploading p;
     playingAudio := playingAudio p; playingVideo := v;
     fileInputRef := fileInputRef p; audioRef := audioRef p; videoRef := videoRef p;
     uploadIsPending := uploadIsPending p; deleteIsPending := deleteIsPending p;
     queryCache := queryCache p |}.

Definition with_fileInputRef (v : option Input.t) (p : Page) : Page :=
  {| selectedFile := selectedFile p; marchName := marchName p; uploading := uploading p;
     playingAudio := playingAudio p; playingVideo := playingVideo p;
     fileInputRef := v; audioRef := audioRef p; videoRef := videoRef p;
     uploadIsPending := uploadIsPending p; deleteIsPending := deleteIsPending p;
     queryCache := queryCache p |}.

Definition with_audioRef (v : option Media.t) (p : Page) : Page :=
  {| selectedFile := selectedFile p; marchName := marchName p; uploading := uploading p;
     playingAudio := playingAudio p; playingVideo := playingVideo p;
     fileInputRef := fileInputRef p; audioRef := v; videoRef := videoRef p;
     uploadIsPending := uploadIsPending p; deleteIsPending := deleteIsPending p;
     queryCache := queryCache p |}.

Definition with_videoRef (v : option Media.t) (p : Page) : Page :=
  {| selectedFile := selectedFile p; marchName := marchName p; uploading := uploading p;
     playingAudio := playingAudio p; playingVideo := playingVideo p;
     fileInputRef := fileInputRef p; audioRef := audioRef p; videoRef := v;
     uploadIsPending := uploadIsPending p; deleteIsPending := deleteIsPending p;
     queryCache := queryCache p |}.

Definition with_uploadIsPending (v : bool) (p : Page) : Page :=
  {| selectedFile := selectedFile p; marchName := marchName p; uploading := uploading p;
     playingAudio := playingAudio p; playingVideo := playingVideo p;
     fileInputRef := fileInputRef p; audioRef := audioRef p; videoRef := videoRef p;
     uploadIsPending := v; deleteIsPending := deleteIsPending p;
     queryCache := queryCache p |}.

Definition with_deleteIsPending (v : bool) (p : Page) : Page :=
  {| selectedFile := selectedFile p; marchName := marchName p; uploading := uploading p;
     playingAudio := playingAudio p; playingVideo := playingVideo p;
     fileInputRef := fileInputRef p; audioRef := audioRef p; videoRef := videoRef p;
     uploadIsPending := uploadIsPending p; deleteIsPending := v;
     queryCache := queryCache p |}.

Definition with_queryCache (v : list Query.t) (p : Page) : Page :=
  {| selectedFile := selectedFile p; marchName := marchName p; uploading := uploading p;
     playingAudio := playingAudio p; playingVideo := playingVideo p;
     fileInputRef := fileInputRef p; audioRef := audioRef p; videoRef := videoRef p;
     uploadIsPending := uploadIsPending p; deleteIsPending := deleteIsPending p;
     queryCache := v |}.

(** ** Handlers as computations

    A handler runs on the component's state, may throw, and leaves a trace
    of effects.  No handler reads a state cell after setting it, so React's
    deferred [setState] and an immediate write agree on the state after the
    handler. *)

Inductive Completion (A : Type) :=
| Normal (a : A)
| Throw (e : JsError).
Arguments Normal {A} a.
Arguments Throw {A} e.

Definition M (A : Type) : Type := Page -> Completion A * Page * list Effect.

Definition ret {A} (a : A) : M A := fun p => (Normal a, p, []).

Definition bind {A B} (c : M A) (k : A -> M B) : M B :=
  fun p =>
    match c p with
    | (Normal a, p1, t1) =>
      match k a p1 with (r, p2, t2) => (r, p2, t1 ++ t2) end
    | (Throw e, p1, t1) => (Throw e, p1, t1)
    end.

Definition throw {A} (e : JsError) : M A := fun p => (Throw e, p, []).
Definition get : M Page := fun p => (Normal p, p, []).
Definition modify (f : Page -> Page) : M unit := fun p => (Normal tt, f p, []).
Definition emit (e : Effect) : M unit := fun p => (Normal tt, p, [e]).

Declare Scope handler_scope.
Delimit Scope handler_scope with handler.
Notation "x <- c ;; k" := (bind c (fun x => k))
  (at level 61, c at next level, right associativity) : handler_scope.
Notation "c ;; k" := (bind c (fun _ => k))
  (at level 61, right associativity) : handler_scope.
Open Scope handler_scope.

(** The three components of a run. *)
Definition completion {A} (r : Completion A * Page * list Effect) : Completion A :=
  fst (fst r).
Definition after {A} (r : Completion A * Page * list Effect) : Page := snd (fst r).
Definition trace {A} (r : Completion A * Page * list Effect) : list Effect := snd r.

(** ** The query client

    [queryClient.invalidateQueries({ queryKey })] of the query library: a
    cached query is hit when the given key matches its key partially (the
    given array is a prefix, objects compared by the fields given); every
    hit is marked invalidated, and then the hits that are active are
    refetched ([refetchQueries], which calls [query.fetch] with
    [cancelRefetch] on each of them). *)

Fixpoint lookupField (k : jsstring) (fs : list (jsstring * jsstring)) : option jsstring :=
  match fs with
  | [] => None
  | (k', v) :: r => if JsString.eqb k k' then Some v else lookupField k r
  end.

Definition partialMatchPart (a b : KeyPart) : bool :=
  match a, b with
  | KStr x, KStr y => JsString.eqb x y
  | KObj fa, KObj fb =>
    forallb (fun kv => match lookupField (fst kv) fa with
                       | Some v => JsString.eqb v (snd kv)
                       | None => false
                       end) fb
  | _, _ => false
  end.

Fixpoint partialMatchKey (a b : QueryKey) : bool :=
  match b with
  | [] => true
  | pb :: rb =>
    match a with
    | [] => false
    | pa :: ra => partialMatchPart pa pb && partialMatchKey ra rb
    end
  end.

Definition keyPartEqb (a b : KeyPart) : bool :=
  match a, b with
  | KStr x, KStr y => JsString.eqb x y
  | KObj fa, KObj fb =>
    (List.length fa =? List.length fb)%nat
    && forallb (fun ab => JsString.eqb (fst (fst ab)) (fst (snd ab))
                          && JsString.eqb (snd (fst ab)) (snd (snd ab)))
               (combine fa fb)
  | _, _ => false
  end.

(** Two keys are the same key. *)
Definition keyEqb (a b : QueryKey) : bool :=
  (List.length a =? List.length b)%nat
  && forallb (fun ab => keyPartEqb (fst ab) (snd ab)) (combine a b).

Definition hit (key : QueryKey) (q : Query.t) : bool :=
  partialMatchKey (Query.queryKey q) key.

Fixpoint emitAll (es : list Effect) : M unit :=
  match es with
  | [] => ret tt
  | e :: r => emit e ;; emitAll r
  end.

(** The cache with the hits marked. *)
Definition invalidated (key : QueryKey) (cache : list Query.t) : list Query.t :=
  map (fun q => if hit key q then Query.invalidate q else q) cache.

(** [query.fetch] under [cancelRefetch]: an idle query starts a request; a
    query whose fetch is out and that has data drops that fetch and starts a
    request; a query whose fetch is out and that has no data yet keeps the
    fetch that is running, and no request starts. *)
Definition startsRequest (q : Query.t) : bool :=
  match Query.fetchStatus q with
  | FetchIdle => true
  | _ => match Query.data q with NoData => false | _ => true end
  end.

(** The active hits on which a request starts. *)
Definition refetchHit (key : QueryKey) (q : Query.t) : bool :=
  hit key q && Query.active q && startsRequest q.

(** The requests a refetch of the hits starts, and the cache after it. *)
Definition refetches (key : QueryKey) (cache : list Query.t) : list Effect :=
  map (fun q => ERefetch (Query.queryKey q)) (filter (refetchHit key) cache).

Definition refetched (key : QueryKey) (cache : list Query.t) : list Query.t :=
  map (fun q => if refetchHit key q then Query.fetch q else q) cache.

(** One query, and the cache, through an invalidation: marked when hit,
    then refetched when an active hit on which a request starts. *)
Definition revalidate (key : QueryKey) (q : Query.t) : Query.t :=
  if hit key q
  then if refetchHit key q then Query.fetch (Query.invalidate q) else Query.invalidate q
  else q.

Definition revalidated (key : QueryKey) (cache : list Query.t) : list Query.t :=
  refetched key (invalidated key cache).

Definition refetchQueries (key : QueryKey) : M unit :=
  p <- get ;;
  modify (with_queryCache (refetched key (queryCache p))) ;;
  emitAll (refetches key (queryCache p)).

Definition invalidateQueries (key : QueryKey) : M unit :=
  modify (fun p => with_queryCache (invalidated key (queryCache p)) p) ;;
  refetchQueries key.

Definition toast (t : Toast.t) : M unit := emit (EToast t).

(** ** The two pages *)

Inductive PageKind := Marches | Music.

(** The category tag sent with an upload and used in the list query. *)
Definition typeTag (k : PageKind) : jsstring :=
  match k with Marches => str "march" | Music => str "music" end.

(** [queryKey] of the uploaded-files query of the page. *)
Definition uploadedFilesKey (k : PageKind) : QueryKey :=
  [KStr (str "/api/music-files"); KObj [(str "type", typeTag k)]].

(** The URL the [queryFn] of that query fetches. *)
Definition uploadedFilesUrl (k : PageKind) : jsstring :=
  str "/api/music-files?type=" ++ typeTag k.

(** [queryKey] of the favorites query of the page. *)
Definition favoritesKey (k : PageKind) : QueryKey :=
  match k with
  | Marches => [KStr (str "/api/favorite-marches")]
  | Music => [KStr (str "/api/favorite-musics")]
  end.

(** Directory of the favorite video assets. *)
Definition videoDir (k : PageKind) : jsstring :=
  match k with Marches => str "/videos/marches/" | Music => str "/videos/music/" end.

Definition uploadedText (k : PageKind) : jsstring :=
  match k with
  | Marches => str "Marş dosyası yüklendi"
  | Music => str "Müzik dosyası yüklendi"
  end.

Definition deletedText (k : PageKind) : jsstring :=
  match k with
  | Marches => str "Marş dosyası silindi"
  | Music => str "Müzik dosyası silindi"
  end.

Definition errorToast (description : jsstring) : Toast.t :=
  {| Toast.title := str "Hata"; Toast.description := description;
     Toast.variant := Some (str "destructive") |}.

Definition successToast (description : jsstring) : Toast.t :=
  {| Toast.title := str "Başarılı"; Toast.description := description;
     Toast.variant := None |}.

Definition infoToast (description : jsstring) : Toast.t :=
  {| Toast.title := str "Bilgi"; Toast.description := description;
     Toast.variant := None |}.

(** *** Upload mutation *)

Definition uploadOnSuccess (k : PageKind) : M unit :=
  invalidateQueries [KStr (str "/api/music-files")] ;;
  modify (with_selectedFile None) ;;
  modify (with_marchName []) ;;
  p <- get ;;
  match fileInputRef p with
  | Some _ => modify (with_fileInputRef (Some {| Input.value := [] |}))
  | None => ret tt
  end ;;
  toast (successToast (uploadedText k)).

Definition uploadOnError : M unit :=
  toast (errorToast (str "Dosya yüklenemedi")).

(** [mutationFn] up to its [await]: the request goes out. *)
Definition uploadRequest (formData : FormData) : M unit :=
  emit (EFetch (str "/api/music-files") (str "POST") (Some formData)).

(** [mutationFn] after its [await]: the promise it returns settles. *)
Definition uploadMutationFn (r : FetchResult) : Completion Json :=
  match r with
  | NetworkError => Throw (TypeError (str "Failed to fetch"))
  | Response status json =>
    if negb (ok status) then Throw (Error (str "Upload failed"))
    else match json with
         | Some v => Normal v
         | None => Throw (SyntaxError (str "Unexpected token"))
         end
  end.

Definition uploadMutate (formData : FormData) : M unit :=
  modify (with_uploadIsPending true) ;;
  uploadRequest formData.

(** The mutation settles: [onSuccess] when [mutationFn] resolved, [onError]
    when it rejected. *)
Definition uploadSettled (k : PageKind) (r : FetchResult) : M unit :=
  match uploadMutationFn r with
  | Normal _ => uploadOnSuccess k
  | Throw _ => uploadOnError
  end ;;
  modify (with_uploadIsPending false).

(** *** Delete mutation *)

Definition deleteOnSuccess (k : PageKind) : M unit :=
  invalidateQueries [KStr (str "/api/music-files")] ;;
  toast (successToast (deletedText k)).

Definition deleteOnError : M unit :=
  toast (errorToast (str "Dosya silinemedi")).

Definition deleteRequest (id : jsstring) : M unit :=
  emit (EFetch (str "/api/music-files/" ++ id) (str "DELETE") None).

Definition deleteMutationFn (r : FetchResult) : Completion unit :=
  match r with
  | NetworkError => Throw (TypeError (str "Failed to fetch"))
  | Response status _ =>
    if negb (ok status) then Throw (Error (str "Delete failed")) else Normal tt
  end.

Definition deleteMutate (id : jsstring) : M unit :=
  modify (with_deleteIsPending true) ;;
  deleteRequest id.

Definition deleteSettled (k : PageKind) (r : FetchResult) : M unit :=
  match deleteMutationFn r with
  | Normal _ => deleteOnSuccess k
  | Throw _ => deleteOnError
  end ;;
  modify (with_deleteIsPending false).

(** *** The handlers *)

Definition allowedTypes : list jsstring :=
  [str "audio/mpeg"; str "audio/mp3"; str "audio/mp4"; str "video/mp4"].

Definition includes (l : list jsstring) (x : jsstring) : bool :=
  existsb (JsString.eqb x) l.

(** [event.target.files?.[0]]: [files] is [null] or a file list. *)
Definition firstFile (files : option (list File.t)) : option File.t :=
  match files with
  | Some (f :: _) => Some f
  | _ => None
  end.

Definition handleFileSelect (files : option (list File.t)) : M unit :=
  match firstFile files with
  | Some file =>
    if includes allowedTypes (File.type file) then
      modify (with_selectedFile (Some file)) ;;
      modify (with_marchName (replaceExt (File.name file)))
    else
      toast (errorToast (str "Sadece MP3 ve MP4 dosyaları kabul edilir"))
  | None => ret tt
  end.

Definition handleUpload (k : PageKind) : M unit :=
  p <- get ;;
  match selectedFile p with
  | None => toast (errorToast (str "Lütfen dosya seçin ve isim girin"))
  | Some file =>
    if negb (truthy (trim (marchName p))) then
      toast (errorToast (str "Lütfen dosya seçin ve isim girin"))
    else
      uploadMutate [ (str "file", EntryFile file);
                     (str "name", EntryString (trim (marchName p)));
                     (str "type", EntryString (typeTag k)) ]
  end.

(** [marker === id] for a marker that is [null] or a string. *)
Definition isPlaying (marker : option jsstring) (id : jsstring) : bool :=
  match marker with
  | Some x => JsString.eqb x id
  | None => false
  end.

Definition handlePlay (audioUrl id : jsstring) : M unit :=
  p <- get ;;
  if isPlaying (playingAudio p) id then
    modify (with_audioRef (option_map Media.pause (audioRef p))) ;;
    modify (with_playingAudio None)
  else
    match audioRef p with
    | Some el =>
      modify (with_audioRef (Some (Media.play (Media.setSrc audioUrl el)))) ;;
      modify (with_playingAudio (Some id))
    | None => ret tt
    end.

Definition handlePlayVideo (videoUrl id : jsstring) : M unit :=
  p <- get ;;
  if isPlaying (playingVideo p) id then
    modify (with_videoRef (option_map Media.pause (videoRef p))) ;;
    modify (with_playingVideo None)
  else
    match videoRef p with
    | Some el =>
      modify (with_videoRef (Some (Media.play (Media.setSrc videoUrl el)))) ;;
      modify (with_playingVideo (Some id))
    | None => ret tt
    end.

(** [handlePlayFavorite(filename, id)].  The parameter is declared a string;
    the value that arrives may be [undefined], and reading [endsWith] of it
    throws. *)
Definition handlePlayFavorite (k : PageKind) (filename : option jsstring)
    (id : jsstring) : M unit :=
  match filename with
  | None => throw (TypeError (str "Cannot read properties of undefined (reading 'endsWith')"))
  | Some filename =>
    if endsWith filename (str ".mp4") then
      handlePlayVideo (videoDir k ++ filename) id
    else
      toast (infoToast (filename ++ str " çalmak için gerçek dosya gerekiyor"))
  end.

(** [a || ""] on a value that is a string or absent. *)
Definition orEmpty (a : option jsstring) : jsstring :=
  match a with
  | Some s => if truthy s then s else []
  | None => []
  end.

(** The [onClick] of the play button of a favorites row: the Marches page
    passes [march.filename], the Music page [music.filename || ""]. *)
Definition clickFavorite (k : PageKind) (fav : Favorite.t) : M unit :=
  match k with
  | Marches => handlePlayFavorite Marches (Favorite.filename fav) (Favorite.id fav)
  | Music => handlePlayFavorite Music (Some (orEmpty (Favorite.filename fav))) (Favorite.id fav)
  end.

(** The [onClick] of the play button and of the delete button of an
    uploaded-files row. *)
Definition clickPlayUploaded (file : MusicFile.t) : M unit :=
  handlePlay (str "/uploads/" ++ MusicFile.filename file) (MusicFile.id file).

Definition clickDelete (file : MusicFile.t) : M unit :=
  deleteMutate (MusicFile.id file).

(** [onEnded] and [onError] of the two media elements. *)
Definition audioOnEnded : M unit := modify (with_playingAudio None).
Definition audioOnError : M unit := modify (with_playingAudio None).
Definition videoOnEnded : M unit := modify (with_playingVideo None).
Definition videoOnError : M unit := modify (with_playingVideo None).

(** The rows the page displays: the data of its list query, [[]] while the
    query has none ([const { data: uploadedFiles = [] } = useQuery(...)]). *)
Definition uploadedFiles (k : PageKind) (p : Page) : list MusicFile.t :=
  match find (fun q => keyEqb (Query.queryKey q) (uploadedFilesKey k)) (queryCache p) with
  | Some q => match Query.data q with Files rows => rows | _ => [] end
  | None => []
  end.

(** A fetch of a query completes with data: the cache entry takes it. *)
Definition queryResolved (key : QueryKey) (d : QueryData) : M unit :=
  modify (fun p => with_queryCache
            (map (fun q => if keyEqb (Query.queryKey q) key then Query.resolve d q else q)
                 (queryCache p)) p).

(** ** The page as an event-driven machine *)

Inductive Event :=
| FileChange (files : option (list File.t))
| NameInput (value : jsstring)
| ClickUpload
| UploadSettles (r : FetchResult)
| ClickDelete (file : MusicFile.t)
| DeleteSettles (r : FetchResult)
| ClickPlay (file : MusicFile.t)
| ClickFavorite (fav : Favorite.t)
| AudioEnded
| AudioError
| VideoEnded
| VideoError
| QueryResolves (key : QueryKey) (d : QueryData).

Definition dispatch (k : PageKind) (ev : Event) : M unit :=
  match ev with
  | FileChange files => handleFileSelect files
  | NameInput v => modify (with_marchName v)
  | ClickUpload => handleUpload k
  | UploadSettles r => uploadSettled k r
  | ClickDelete file => clickDelete file
  | DeleteSettles r => deleteSettled k r
  | ClickPlay file => clickPlayUploaded file
  | ClickFavorite fav => clickFavorite k fav
  | AudioEnded => audioOnEnded
  | AudioError => audioOnError
  | VideoEnded => videoOnEnded
  | VideoError => videoOnError
  | QueryResolves key d => queryResolved key d
  end.

(** A query as [useQuery] creates it when the component mounts: observed,
    without data, its first fetch out. *)
Definition newQuery (key : QueryKey) : Query.t :=
  {| Query.queryKey := key; Query.data := NoData; Query.active := true;
     Query.isInvalidated := false; Query.fetchStatus := Fetching |}.

(** The component right after its first render: the state cells at their
    initial values, the three elements of the markup attached to their refs
    (the markup renders them unconditionally), the two queries of the page
    observed. *)
Definition initialPage (k : PageKind) : Page :=
  {| selectedFile := None; marchName := []; uploading := false;
     playingAudio := None; playingVideo := None;
     fileInputRef := Some {| Input.value := [] |};
     audioRef := Some {| Media.src := []; Media.paused := true |};
     videoRef := Some {| Media.src := []; Media.paused := true |};
     uploadIsPending := false; deleteIsPending := false;
     queryCache := [newQuery (uploadedFilesKey k); newQuery (favoritesKey k)] |}.

(** The states a mounted page goes through. *)
Inductive reachable (k : PageKind) : Page -> Prop :=
| reach_init : reachable k (initialPage k)
| reach_step p ev : reachable k p -> reachable k (after (dispatch k ev p)).

(** What stays true of a mounted page: its three refs hold an element and
    its list query is in the cache, observed. *)
Definition listObserved (k : PageKind) (p : Page) : Prop :=
  exists q, In q (queryCache p)
            /\ Query.queryKey q = uploadedFilesKey k
            /\ Query.active q = true.

Definition mounted (k : PageKind) (p : Page) : Prop :=
  fileInputRef p <> None /\ audioRef p <> None /\ videoRef p <> None
  /\ listObserved k p.

(** The row is on display: it is one of the rows of the list query the page
    observes. *)
Definition onDisplay (k : PageKind) (p : Page) (file : MusicFile.t) : Prop :=
  exists q rows,
    In q (queryCache p)
    /\ Query.queryKey q = uploadedFilesKey k
    /\ Query.active q = true
    /\ Query.data q = Files rows
    /\ In file rows.

(** A step that keeps what the invariant looks at: attached refs stay
    attached, and the cache keeps its keys and its observers. *)
Definition sameMount (p p' : Page) : Prop :=
  (fileInputRef p <> None -> fileInputRef p' <> None)
  /\ (audioRef p <> None -> audioRef p' <> None)
  /\ (videoRef p <> None -> videoRef p' <> None)
  /\ exists f, (forall q, Query.queryKey (f q) = Query.queryKey q)
               /\ (forall q, Query.active (f q) = Query.active q)
               /\ queryCache p' = map f (queryCache p).

(** An effect that goes to the network: a [fetch] or a refetch of a
    query. *)
Definition isRequest (e : Effect) : bool :=
  match e with
  | EFetch _ _ _ => true
  | ERefetch _ => true
  | EToast _ => false
  end.

(** ** Sample data *)

Definition zeybek : File.t :=
  {| File.name := str "zeybek.mp3"; File.type := str "audio/mpeg" |}.

Definition notes : File.t :=
  {| File.name := str "notes.txt"; File.type := str "text/plain" |}.

Definition file42 : MusicFile.t :=
  {| MusicFile.id := str "42"; MusicFile.name := str "Zeybek";
     MusicFile.originalName := str "zeybek.mp3";
     MusicFile.filename := str "1700000000-zeybek.mp3" |}.

Definition onuncuYil : Favorite.t :=
  {| Favorite.id := str "1"; Favorite.title := str "Onuncu Yıl Marşı";
     Favorite.artist := None; Favorite.description := str "1933";
     Favorite.filename := Some (str "onuncu_yil.mp4") |}.

Definition izmirMarsi : Favorite.t :=
  {| Favorite.id := str "2"; Favorite.title := str "İzmir Marşı";
     Favorite.artist := None; Favorite.description := str "";
     Favorite.filename := None |}.

(** The Marches page with a file picked and a name typed. *)
Definition draftPage : Page :=
  after (dispatch Marches (FileChange (Some [zeybek])) (initialPage Marches)).

(** The Marches page while the favorite [onuncuYil] plays: one click on its
    row from the initial page. *)
Definition onuncuYilPlaying : Page :=
  after (dispatch Marches (ClickFavorite onuncuYil) (initialPage Marches)).

(** The Marches page once the first fetch of its list has completed with
    the row [file42], and the same with a file picked. *)
Definition listedPage : Page :=
  after (dispatch Marches
           (QueryResolves (uploadedFilesKey Marches) (Files [file42]))
           (initialPage Marches)).

Definition listedDraftPage : Page :=
  after (dispatch Marches (FileChange (Some [zeybek])) listedPage).

(** The Marches page with a file picked and the upload button clicked while
    the first fetch of the list is still out. *)
Definition uploadingPage : Page :=
  after (dispatch Marches ClickUpload draftPage).

(** The Marches page reached from the Music page: the list query of the
    Music page is still in the cache, no longer observed. *)
Definition afterMusicVisit : Page :=
  with_queryCache
    (queryCache (initialPage Marches)
     ++ [ {| Query.queryKey := uploadedFilesKey Music; Query.data := Files [file42];
             Query.active := false; Query.isInvalidated := false;
             Query.fetchStatus := FetchIdle |} ])
    (initialPage Marches).

(** ** The contract in the words of the specification *)

(** The playback machine of one media kind: [Idle], or [Playing id]. *)
Module PlaybackSpec.

Inductive state :=
| Idle
| Playing (id : jsstring).

(** The shared element as the machine sees it: its source and whether it
    plays. *)
Record element := { source : jsstring; playing : bool }.

(** toggle(id): in [Playing id] stop playback and go to [Idle]; otherwise set
    the source to the requested URL, start playback and go to
    [Playing id]. *)
Definition toggle (url id : jsstring) (st : state) (el : element) : state * element :=
  match st with
  | Playing cur =>
    if JsString.eqb cur id
    then (Idle, {| source := source el; playing := false |})
    else (Playing id, {| source := url; playing := true |})
  | Idle => (Playing id, {| source := url; playing := true |})
  end.

(** End of playback or playback error: back to [Idle]. *)
Definition reset (st : state) : state := Idle.

Definition ofMarker (m : option jsstring) : state :=
  match m with Some id => Playing id | None => Idle end.

Definition ofMedia (m : Media.t) : element :=
  {| source := Media.src m; playing := negb (Media.paused m) |}.

End PlaybackSpec.

(** The file name with its final [.ext] suffix removed, [.ext] being a dot
    followed by one or more code units other than a dot and a slash: cut at
    the last dot when what follows it is such an extension. *)
Module ExtSpec.

(** [isExt e]: [e] is not empty and has neither a dot nor a slash. *)
Definition isExt (e : jsstring) : bool :=
  truthy e && forallb notSlashDot e.

(** The text before the last dot and the text after it. *)
Fixpoint splitLastDot (s : jsstring) : option (jsstring * jsstring) :=
  match s with
  | [] => None
  | c :: r =>
    match splitLastDot r with
    | Some (base, e) => Some (c :: base, e)
    | None => if (c =? dot)%N then Some ([], r) else None
    end
  end.

Definition stripFinalExt (s : jsstring) : jsstring :=
  match splitLastDot s with
  | Some (base, e) => if isExt e then base else s
  | None => s
  end.

End ExtSpec.

(** ** What the markup derives from the state *)

(** [disabled] of the upload button:
    [!selectedFile || !marchName.trim() || uploadMutation.isPending]. *)
Definition uploadDisabled (p : Page) : bool :=
  match selectedFile p with
  | None => true
  | Some _ => negb (truthy (trim (marchName p))) || uploadIsPending p
  end.

(** [disabled] of the delete button of every row:
    [deleteMutation.isPending]. *)
Definition deleteDisabled (p : Page) : bool := deleteIsPending p.

(** The icon of a play button: [<Pause>] when the marker is the id of the
    row, [<Play>] otherwise. *)
Inductive Icon := PauseIcon | PlayIcon.

Definition uploadedIcon (p : Page) (file : MusicFile.t) : Icon :=
  if isPlaying (playingAudio p) (MusicFile.id file) then PauseIcon else PlayIcon.

Definition favoriteIcon (p : Page) (fav : Favorite.t) : Icon :=
  if isPlaying (playingVideo p) (Favorite.id fav) then PauseIcon else PlayIcon.

(** ** Kinds of events and of effects *)



(** ** Where the two elements take their media from *)

(** The source of the audio element is empty or a file under [/uploads/];
    the source of the video element is empty or an [.mp4] file under the
    video directory of the page. *)
Definition assetSources (k : PageKind) (p : Page) : Prop :=
  (forall el, audioRef p = Some el ->
     Media.src el = [] \/ exists name, Media.src el = str "/uploads/" ++ name)
  /\ (forall el, videoRef p = Some el ->
       Media.src el = []
       \/ exists fn, Media.src el = videoDir k ++ fn
                     /\ endsWith fn (str ".mp4") = true).

(** A marker that holds an id goes with an element that has been given a
    source of the page's own. *)
Definition markersHaveSource (k : PageKind) (p : Page) : Prop :=
  (forall id, playingAudio p = Some id ->
     exists el name, audioRef p = Some el /\ Media.src el = str "/uploads/" ++ name)
  /\ (forall id, playingVideo p = Some id ->
       exists el fn, videoRef p = Some el
                     /\ Media.src el = videoDir k ++ fn
                     /\ endsWith fn (str ".mp4") = true).

(** * Properties *)

(** ** Strings *)

Lemma eqb_eq (s t : jsstring) : JsString.eqb s t = true <-> s = t.
Proof.
  unfold JsString.eqb. destruct (list_eq_dec N.eq_dec s t); split; congruence.
Qed.

Lemma eqb_refl (s : jsstring) : JsString.eqb s s = true.
Proof. now apply eqb_eq. Qed.

Lemma eqb_neq (s t : jsstring) : JsString.eqb s t = false <-> s <> t.
Proof.
  unfold JsString.eqb. destruct (list_eq_dec N.eq_dec s t); split; congruence.
Qed.

Example str_ascii : str "a.b" = [97; 46; 98]%N.
Proof. reflexivity. Qed.

Example str_turkish : str "Marş" = [77; 97; 114; 351]%N.
Proof. reflexivity. Qed.

Example replaceExt_zeybek : replaceExt (str "zeybek.mp3") = str "zeybek".
Proof. reflexivity. Qed.

Example replaceExt_two_dots : replaceExt (str "a.tar.gz") = str "a.tar".
Proof. reflexivity. Qed.

Example replaceExt_none : replaceExt (str "zeybek") = str "zeybek".
Proof. reflexivity. Qed.

Example replaceExt_trailing_dot : replaceExt (str "zeybek.") = str "zeybek.".
Proof. reflexivity. Qed.

Example replaceExt_slash_after_dot : replaceExt (str "a.b/c") = str "a.b/c".
Proof. reflexivity. Qed.

Example replaceExt_hidden : replaceExt (str ".mp3") = [].
Proof. reflexivity. Qed.

Example trim_spaces : trim (str "  on  yil ") = str "on  yil".
Proof. reflexivity. Qed.

Example endsWith_mp4 : endsWith (str "onuncu_yil.mp4") (str ".mp4") = true.
Proof. reflexivity. Qed.

Example endsWith_short : endsWith (str "mp4") (str ".mp4") = false.
Proof. reflexivity. Qed.

(** *** The regular expression against the final extension *)

Section Extension.

Import ExtSpec.

(** The repetition followed by the end anchor accepts exactly the
    extensions. *)
Lemma matchClassPlusEnd_isExt (s : jsstring) : matchClassPlusEnd s = isExt s.
Proof.
  induction s as [|c r IH]; [reflexivity|].
  cbn [matchClassPlusEnd]. rewrite IH. unfold isExt.
  destruct r as [|c' r']; cbn [truthy forallb andb orb].
  - reflexivity.
  - now rewrite orb_false_r.
Qed.

Lemma isExt_no_dot (a b : jsstring) : isExt (a ++ dot :: b) = false.
Proof.
  unfold isExt. rewrite forallb_app. cbn [forallb].
  replace (notSlashDot dot) with false by reflexivity.
  cbn [andb]. now rewrite !andb_false_r.
Qed.

Lemma matchExtAt_cons (c : unit16) (r : jsstring) :
  matchExtAt (c :: r) = (c =? dot)%N && isExt r.
Proof. cbn [matchExtAt]. now rewrite matchClassPlusEnd_isExt. Qed.

(** [splitLastDot] cuts at a dot and leaves no dot behind it. *)
Lemma splitLastDot_some (s base e : jsstring) :
  splitLastDot s = Some (base, e) ->
  s = base ++ dot :: e /\ forallb (fun c => negb (c =? dot)%N) e = true.
Proof.
  revert base e. induction s as [|c r IH]; intros base e; cbn [splitLastDot].
  - discriminate.
  - destruct (splitLastDot r) as [[b' e']|] eqn:Hr.
    + intros H; injection H as <- <-.
      destruct (IH b' e' eq_refl) as [-> He]. now split.
    + destruct (N.eqb_spec c dot) as [->|Hc]; [|discriminate].
      intros H; injection H as <- <-. split; [reflexivity|].
      clear IH. induction r as [|d r IHr]; [reflexivity|].
      cbn [splitLastDot] in Hr. cbn [forallb].
      destruct (splitLastDot r) as [[b' e']|]; [discriminate|].
      destruct (N.eqb_spec d dot); [discriminate|]. cbn [negb andb]. now apply IHr.
Qed.

Lemma splitLastDot_none (s : jsstring) :
  splitLastDot s = None -> forall base e, s <> base ++ dot :: e.
Proof.
  induction s as [|c r IH]; cbn [splitLastDot]; intros H base e.
  - now destruct base.
  - destruct (splitLastDot r) as [[b' e']|]; [discriminate|].
    destruct (N.eqb_spec c dot) as [|Hc]; [discriminate|].
    destruct base as [|b base]; cbn; intros E; injection E as E1 E2.
    + contradiction.
    + now apply (IH eq_refl base e).
Qed.

(** The replacement computes the file name without its final extension. *)
Lemma replaceExt_stripFinalExt (s : jsstring) : replaceExt s = stripFinalExt s.
Proof.
  induction s as [|c r IH]; [reflexivity|].
  cbn [replaceExt]. rewrite matchExtAt_cons, IH.
  unfold stripFinalExt. cbn [splitLastDot].
  destruct (splitLastDot r) as [[base e]|] eqn:Hr.
  - destruct (splitLastDot_some _ _ _ Hr) as [-> _].
    rewrite isExt_no_dot, andb_false_r. now destruct (isExt e).
  - destruct (N.eqb_spec c dot) as [->|Hc]; cbn [andb]; [|reflexivity].
    now destruct (isExt r).
Qed.

(** Cutting a name that ends in an extension gives what is before the
    dot. *)
Lemma replaceExt_app (base e : jsstring) :
  isExt e = true -> replaceExt (base ++ dot :: e) = base.
Proof.
  intros He. induction base as [|c b IH]; cbn [app replaceExt].
  - rewrite matchExtAt_cons, He. reflexivity.
  - rewrite matchExtAt_cons, isExt_no_dot, andb_false_r. now rewrite IH.
Qed.

(** A name that does not end in an extension is kept. *)
Lemma replaceExt_keep (s : jsstring) :
  (forall base e, s = base ++ dot :: e -> isExt e = false) -> replaceExt s = s.
Proof.
  intros H. rewrite replaceExt_stripFinalExt. unfold stripFinalExt.
  destruct (splitLastDot s) as [[base e]|] eqn:Hs; [|reflexivity].
  destruct (splitLastDot_some _ _ _ Hs) as [-> _].
  now rewrite (H base e eq_refl).
Qed.

(** The extension cut off is the only trailing one: two ways of writing a
    name as a base, a dot and an extension are the same. *)
Lemma ext_unique (b1 e1 b2 e2 : jsstring) :
  b1 ++ dot :: e1 = b2 ++ dot :: e2 ->
  isExt e1 = true -> isExt e2 = true -> b1 = b2 /\ e1 = e2.
Proof.
  intros E H1 H2.
  assert (B : b1 = b2).
  { rewrite <- (replaceExt_app b1 e1 H1), <- (replaceExt_app b2 e2 H2). now rewrite E. }
  subst. apply app_inv_head in E. injection E as ->. now split.
Qed.

End Extension.

(** *** [trim] *)

Lemma trimStart_head (s : jsstring) :
  trimStart s = []
  \/ exists c r, trimStart s = c :: r /\ isWhiteSpace c = false.
Proof.
  induction s as [|c r IH]; [now left|].
  cbn [trimStart]. destruct (isWhiteSpace c) eqn:Hc; [exact IH|].
  right. now exists c, r.
Qed.

Lemma trimStart_nil (s : jsstring) :
  trimStart s = [] <-> forallb isWhiteSpace s = true.
Proof.
  induction s as [|c r IH]; cbn [trimStart forallb]; [tauto|].
  destruct (isWhiteSpace c); cbn [andb]; [exact IH|]. split; discriminate.
Qed.

Lemma forallb_rev {A} (f : A -> bool) (l : list A) :
  forallb f (rev l) = forallb f l.
Proof.
  induction l as [|a l IH]; [reflexivity|].
  cbn [rev forallb]. rewrite forallb_app, IH. cbn [forallb].
  rewrite andb_true_r. apply andb_comm.
Qed.

(** The trimmed string is empty exactly for the strings made of white space
    only (the empty one among them). *)
Lemma trim_nil (s : jsstring) :
  trim s = [] <-> forallb isWhiteSpace s = true.
Proof.
  unfold trim, trimEnd. split.
  - intros H. apply (f_equal (@rev _)) in H. rewrite rev_involutive in H.
    cbn [rev] in H. apply trimStart_nil in H. rewrite forallb_rev in H.
    destruct (trimStart_head s) as [E|(c & r & E & Hc)].
    + now apply trimStart_nil.
    + rewrite E in H. cbn [forallb] in H. rewrite Hc in H. discriminate.
  - intros H. apply trimStart_nil in H. now rewrite H.
Qed.

(** ** Running handlers *)

Lemma emitAll_run (es : list Effect) (p : Page) :
  emitAll es p = (Normal tt, p, es).
Proof.
  induction es as [|e es IH]; [reflexivity|].
  cbn [emitAll]. unfold bind, emit. now rewrite IH.
Qed.

Lemma refetchHit_invalidate (key : QueryKey) (q : Query.t) :
  refetchHit key (Query.invalidate q) = refetchHit key q.
Proof. reflexivity. Qed.

Lemma refetchHit_hit (key : QueryKey) (q : Query.t) :
  refetchHit key q = true -> hit key q = true.
Proof.
  unfold refetchHit. intros H.
  apply andb_true_iff in H as [H _]. now apply andb_true_iff in H as [H _].
Qed.

(** Marking the hits changes neither which requests start nor their keys. *)
Lemma refetches_invalidated (key : QueryKey) (cache : list Query.t) :
  refetches key (invalidated key cache) = refetches key cache.
Proof.
  unfold refetches, invalidated. induction cache as [|q cache IH]; [reflexivity|].
  cbn [map filter]. destruct (hit key q).
  - rewrite refetchHit_invalidate. destruct (refetchHit key q); cbn [map]; now rewrite IH.
  - destruct (refetchHit key q); cbn [map]; now rewrite IH.
Qed.

Lemma revalidated_map (key : QueryKey) (cache : list Query.t) :
  revalidated key cache = map (revalidate key) cache.
Proof.
  unfold revalidated, refetched, invalidated. rewrite map_map. apply map_ext.
  intros q. unfold revalidate. destruct (hit key q) eqn:Hh.
  - now rewrite refetchHit_invalidate.
  - destruct (refetchHit key q) eqn:Hr; [|reflexivity].
    apply refetchHit_hit in Hr. congruence.
Qed.

Lemma invalidateQueries_run (key : QueryKey) (p : Page) :
  invalidateQueries key p
  = (Normal tt, with_queryCache (revalidated key (queryCache p)) p,
     refetches key (queryCache p)).
Proof.
  unfold invalidateQueries, refetchQueries, bind, modify, get.
  rewrite emitAll_run. cbn [app fst snd].
  change (queryCache (with_queryCache (invalidated key (queryCache p)) p))
    with (invalidated key (queryCache p)).
  now rewrite refetches_invalidated.
Qed.

Lemma bind_run {A B} (c : M A) (k : A -> M B) (p p1 : Page) (a : A) (t1 : list Effect) :
  c p = (Normal a, p1, t1) ->
  bind c k p = (completion (k a p1), after (k a p1), t1 ++ trace (k a p1)).
Proof.
  intros H. unfold bind. rewrite H. now destruct (k a p1) as [[r p2] t2].
Qed.

(** An invalidation keeps the keys, the observers and the data of the
    cache, and marks the hits. *)
Lemma revalidate_queryKey (key : QueryKey) (q : Query.t) :
  Query.queryKey (revalidate key q) = Query.queryKey q.
Proof. unfold revalidate. now destruct (hit key q), (refetchHit key q). Qed.

Lemma revalidate_active (key : QueryKey) (q : Query.t) :
  Query.active (revalidate key q) = Query.active q.
Proof. unfold revalidate. now destruct (hit key q), (refetchHit key q). Qed.

Lemma revalidate_data (key : QueryKey) (q : Query.t) :
  Query.data (revalidate key q) = Query.data q.
Proof. unfold revalidate. now destruct (hit key q), (refetchHit key q). Qed.

Lemma revalidate_isInvalidated (key : QueryKey) (q : Query.t) :
  hit key q = true -> Query.isInvalidated (revalidate key q) = true.
Proof. intros H. unfold revalidate. rewrite H. now destruct (refetchHit key q). Qed.

Lemma revalidate_miss (key : QueryKey) (q : Query.t) :
  hit key q = false -> revalidate key q = q.
Proof. intros H. unfold revalidate. now rewrite H. Qed.

Lemma revalidated_In (key : QueryKey) (cache : list Query.t) (q : Query.t) :
  In q cache -> In (revalidate key q) (revalidated key cache).
Proof. intros H. rewrite revalidated_map. now apply in_map. Qed.

Lemma revalidated_inv (key : QueryKey) (cache : list Query.t) (q' : Query.t) :
  In q' (revalidated key cache) ->
  exists q, In q cache /\ q' = revalidate key q.
Proof.
  rewrite revalidated_map, in_map_iff. intros (q & E & H). now exists q.
Qed.

(** The requests of a refetch: one for each active hit that is idle or has
    data. *)
Lemma refetches_In (key k0 : QueryKey) (cache : list Query.t) :
  In (ERefetch k0) (refetches key cache)
  <-> exists q, In q cache /\ Query.queryKey q = k0
                /\ hit key q = true /\ Query.active q = true
                /\ startsRequest q = true.
Proof.
  unfold refetches. rewrite in_map_iff. split.
  - intros (q & E & H). apply filter_In in H as [Hin Hq]. exists q.
    injection E as E. unfold refetchHit in Hq.
    apply andb_true_iff in Hq as [Hq Hs]. apply andb_true_iff in Hq as [Hh Ha].
    now repeat split.
  - intros (q & Hin & Hk & Hh & Ha & Hs). exists q. split; [now rewrite Hk|].
    apply filter_In. split; [exact Hin|]. unfold refetchHit. now rewrite Hh, Ha, Hs.
Qed.

Lemma startsRequest_iff (q : Query.t) :
  startsRequest q = true
  <-> Query.fetchStatus q = FetchIdle \/ Query.data q <> NoData.
Proof.
  unfold startsRequest.
  destruct (Query.fetchStatus q), (Query.data q); split; intros H;
    try reflexivity; try discriminate; try (now left); try (now right);
    destruct H as [H|H]; congruence.
Qed.

(** The key the two mutations invalidate hits the list query of either page
    and not its favorites query. *)
Lemma musicFiles_hits_list (k : PageKind) (q : Query.t) :
  Query.queryKey q = uploadedFilesKey k ->
  hit [KStr (str "/api/music-files")] q = true.
Proof. intros H. unfold hit. rewrite H. now destruct k. Qed.

Lemma musicFiles_misses_favorites (k : PageKind) (q : Query.t) :
  Query.queryKey q = favoritesKey k ->
  hit [KStr (str "/api/music-files")] q = false.
Proof. intros H. unfold hit. rewrite H. now destruct k. Qed.

(** An observed list query is marked by an invalidation of the music-files
    key, and refetched when it is idle or has data. *)
Lemma listObserved_revalidated (k : PageKind) (cache : list Query.t) (q : Query.t) :
  In q cache -> Query.queryKey q = uploadedFilesKey k -> Query.active q = true ->
  (exists q', In q' (revalidated [KStr (str "/api/music-files")] cache)
              /\ Query.queryKey q' = uploadedFilesKey k
              /\ Query.active q' = true
              /\ Query.isInvalidated q' = true)
  /\ (startsRequest q = true ->
      In (ERefetch (uploadedFilesKey k))
         (refetches [KStr (str "/api/music-files")] cache)).
Proof.
  intros Hin Hk Ha. pose proof (musicFiles_hits_list k q Hk) as Hh. split.
  - exists (revalidate [KStr (str "/api/music-files")] q).
    rewrite revalidate_queryKey, revalidate_active, (revalidate_isInvalidated _ _ Hh).
    repeat split; try assumption. now apply revalidated_In.
  - intros Hs. apply refetches_In. exists q. now repeat split.
Qed.

Lemma revalidated_list_query (k : PageKind) (cache : list Query.t) (q' : Query.t) :
  In q' (revalidated [KStr (str "/api/music-files")] cache) ->
  Query.queryKey q' = uploadedFilesKey k ->
  Query.isInvalidated q' = true.
Proof.
  intros H Hk. destruct (revalidated_inv _ _ _ H) as (q & _ & ->).
  rewrite revalidate_queryKey in Hk.
  apply revalidate_isInvalidated. exact (musicFiles_hits_list k q Hk).
Qed.

(** When the list query of a page is among the requests of an invalidation of
    the music-files key. *)
Lemma list_refetch_iff (k : PageKind) (cache : list Query.t) (t : Toast.t) :
  In (ERefetch (uploadedFilesKey k))
     (refetches [KStr (str "/api/music-files")] cache ++ [EToast t])
  <-> exists q, In q cache
                /\ Query.queryKey q = uploadedFilesKey k
                /\ Query.active q = true
                /\ (Query.fetchStatus q = FetchIdle \/ Query.data q <> NoData).
Proof.
  rewrite in_app_iff, refetches_In. split.
  - intros [(q & Hin & Hk & _ & Ha & Hs)|[E|[]]]; [|discriminate].
    exists q. apply startsRequest_iff in Hs. now repeat split.
  - intros (q & Hin & Hk & Ha & Hs). left. exists q.
    apply startsRequest_iff in Hs. repeat split; try assumption.
    exact (musicFiles_hits_list k q Hk).
Qed.

(** ** The invariant of a mounted page *)

Lemma listObserved_map (k : PageKind) (f : Query.t -> Query.t) (p p' : Page) :
  (forall q, Query.queryKey (f q) = Query.queryKey q) ->
  (forall q, Query.active (f q) = Query.active q) ->
  queryCache p' = map f (queryCache p) ->
  listObserved k p -> listObserved k p'.
Proof.
  intros Hk Ha Hc (q & Hin & Hq & Hact). exists (f q). rewrite Hc, Hk, Ha.
  repeat split; try assumption. now apply in_map.
Qed.

Lemma mounted_initial (k : PageKind) : mounted k (initialPage k).
Proof.
  repeat split; try discriminate.
  exists (newQuery (uploadedFilesKey k)). repeat split. now left.
Qed.

Lemma sameMount_mounted (k : PageKind) (p p' : Page) :
  sameMount p p' -> mounted k p -> mounted k p'.
Proof.
  intros (Hf & Ha & Hv & f & Hk & Hact & Hc) (Mf & Ma & Mv & Ml).
  repeat split; auto. exact (listObserved_map k f p p' Hk Hact Hc Ml).
Qed.

Lemma sameMount_refl_cache (p p' : Page) :
  (fileInputRef p <> None -> fileInputRef p' <> None) ->
  (audioRef p <> None -> audioRef p' <> None) ->
  (videoRef p <> None -> videoRef p' <> None) ->
  queryCache p' = queryCache p -> sameMount p p'.
Proof.
  intros Hf Ha Hv Hc. repeat split; auto.
  exists (fun q => q). rewrite Hc, map_id. auto.
Qed.

Lemma sameMount_map_cache (f : Query.t -> Query.t) (p p' : Page) :
  (forall q, Query.queryKey (f q) = Query.queryKey q) ->
  (forall q, Query.active (f q) = Query.active q) ->
  fileInputRef p' = fileInputRef p -> audioRef p' = audioRef p ->
  videoRef p' = videoRef p ->
  queryCache p' = map f (queryCache p) -> sameMount p p'.
Proof.
  intros Hk Hact Hf Ha Hv Hc. unfold sameMount. rewrite Hf, Ha, Hv.
  repeat split; auto. now exists f.
Qed.

Lemma sameMount_trans (p1 p2 p3 : Page) :
  sameMount p1 p2 -> sameMount p2 p3 -> sameMount p1 p3.
Proof.
  intros (Hf & Ha & Hv & f & Hk & Hact & Hc) (Hf' & Ha' & Hv' & g & Hk' & Hact' & Hc').
  repeat split; auto. exists (fun q => g (f q)). repeat split.
  - intros q. now rewrite Hk', Hk.
  - intros q. now rewrite Hact', Hact.
  - now rewrite Hc', Hc, map_map.
Qed.

(** ** What each handler does *)

Ltac run := unfold bind, modify, get, emit, toast, ret, throw; cbn.

Lemma handleFileSelect_none (files : option (list File.t)) (p : Page) :
  firstFile files = None -> handleFileSelect files p = (Normal tt, p, []).
Proof. intros H. unfold handleFileSelect. now rewrite H. Qed.

Lemma handleFileSelect_accept (files : option (list File.t)) (file : File.t) (p : Page) :
  firstFile files = Some file ->
  includes allowedTypes (File.type file) = true ->
  handleFileSelect files p
  = (Normal tt,
     with_marchName (replaceExt (File.name file)) (with_selectedFile (Some file) p),
     []).
Proof. intros H Ht. unfold handleFileSelect. now rewrite H, Ht. Qed.

Lemma handleFileSelect_reject (files : option (list File.t)) (file : File.t) (p : Page) :
  firstFile files = Some file ->
  includes allowedTypes (File.type file) = false ->
  handleFileSelect files p
  = (Normal tt, p,
     [EToast (errorToast (str "Sadece MP3 ve MP4 dosyaları kabul edilir"))]).
Proof. intros H Ht. unfold handleFileSelect. now rewrite H, Ht. Qed.

Lemma includes_In (l : list jsstring) (x : jsstring) :
  includes l x = true <-> In x l.
Proof.
  unfold includes. rewrite existsb_exists. split.
  - intros (y & Hy & E). apply eqb_eq in E. now subst.
  - intros H. exists x. split; [exact H|apply eqb_refl].
Qed.

Lemma includes_not_In (l : list jsstring) (x : jsstring) :
  includes l x = false <-> ~ In x l.
Proof.
  rewrite <- includes_In. destruct (includes l x); split; congruence.
Qed.

Lemma handleUpload_blocked (k : PageKind) (p : Page) :
  selectedFile p = None \/ trim (marchName p) = [] ->
  handleUpload k p
  = (Normal tt, p, [EToast (errorToast (str "Lütfen dosya seçin ve isim girin"))]).
Proof.
  intros H. unfold handleUpload, bind, get.
  destruct (selectedFile p) as [file|]; [|reflexivity].
  destruct H as [H|H]; [discriminate|]. now rewrite H.
Qed.

Lemma handleUpload_sends (k : PageKind) (p : Page) (file : File.t) :
  selectedFile p = Some file -> trim (marchName p) <> [] ->
  handleUpload k p
  = (Normal tt, with_uploadIsPending true p,
     [EFetch (str "/api/music-files") (str "POST")
        (Some [ (str "file", EntryFile file);
                (str "name", EntryString (trim (marchName p)));
                (str "type", EntryString (typeTag k)) ])]).
Proof.
  intros Hf Hn. unfold handleUpload, bind, get. rewrite Hf.
  destruct (trim (marchName p)) as [|c r]; [contradiction|]. reflexivity.
Qed.

(** The page after [onSuccess] of the upload mutation. *)
Lemma uploadSettled_success (k : PageKind) (r : FetchResult) (j : Json) (p : Page) :
  uploadMutationFn r = Normal j ->
  uploadSettled k r p
  = (Normal tt,
     with_uploadIsPending false
       ((match fileInputRef p with
         | Some _ => with_fileInputRef (Some {| Input.value := [] |})
         | None => fun p1 => p1
         end)
          (with_marchName []
             (with_selectedFile None
                (with_queryCache
                   (revalidated [KStr (str "/api/music-files")] (queryCache p)) p)))),
     refetches [KStr (str "/api/music-files")] (queryCache p)
     ++ [EToast (successToast (uploadedText k))]).
Proof.
  intros H. unfold uploadSettled. rewrite H. unfold uploadOnSuccess.
  unfold bind at 1 2. rewrite invalidateQueries_run. run.
  destruct (fileInputRef p); cbn; now rewrite app_nil_r.
Qed.

Lemma uploadSettled_failure (k : PageKind) (r : FetchResult) (e : JsError) (p : Page) :
  uploadMutationFn r = Throw e ->
  uploadSettled k r p
  = (Normal tt, with_uploadIsPending false p,
     [EToast (errorToast (str "Dosya yüklenemedi"))]).
Proof. intros H. unfold uploadSettled. now rewrite H. Qed.

Lemma deleteSettled_success (k : PageKind) (r : FetchResult) (p : Page) :
  deleteMutationFn r = Normal tt ->
  deleteSettled k r p
  = (Normal tt,
     with_deleteIsPending false
       (with_queryCache (revalidated [KStr (str "/api/music-files")] (queryCache p)) p),
     refetches [KStr (str "/api/music-files")] (queryCache p)
     ++ [EToast (successToast (deletedText k))]).
Proof.
  intros H. unfold deleteSettled. rewrite H. unfold deleteOnSuccess.
  unfold bind at 1 2. rewrite invalidateQueries_run. run. now rewrite app_nil_r.
Qed.

Lemma deleteSettled_failure (k : PageKind) (r : FetchResult) (e : JsError) (p : Page) :
  deleteMutationFn r = Throw e ->
  deleteSettled k r p
  = (Normal tt, with_deleteIsPending false p,
     [EToast (errorToast (str "Dosya silinemedi"))]).
Proof. intros H. unfold deleteSettled. now rewrite H. Qed.

(** When the two [mutationFn] reject. *)
Lemma uploadMutationFn_rejects (r : FetchResult) :
  (r = NetworkError \/ exists status json, r = Response status json /\ ok status = false) ->
  exists e, uploadMutationFn r = Throw e.
Proof.
  intros [->|(status & json & -> & H)]; cbn; [eauto|]. rewrite H. cbn. eauto.
Qed.

Lemma deleteMutationFn_rejects (r : FetchResult) :
  (r = NetworkError \/ exists status json, r = Response status json /\ ok status = false) ->
  exists e, deleteMutationFn r = Throw e.
Proof.
  intros [->|(status & json & -> & H)]; cbn; [eauto|]. rewrite H. cbn. eauto.
Qed.

Lemma handlePlay_same (url id : jsstring) (p : Page) :
  isPlaying (playingAudio p) id = true ->
  handlePlay url id p
  = (Normal tt,
     with_playingAudio None (with_audioRef (option_map Media.pause (audioRef p)) p), []).
Proof. intros H. unfold handlePlay, bind, get. now rewrite H. Qed.

Lemma handlePlay_other (url id : jsstring) (p : Page) (el : Media.t) :
  isPlaying (playingAudio p) id = false -> audioRef p = Some el ->
  handlePlay url id p
  = (Normal tt,
     with_playingAudio (Some id)
       (with_audioRef (Some (Media.play (Media.setSrc url el))) p), []).
Proof. intros H He. unfold handlePlay, bind, get. now rewrite H, He. Qed.

Lemma handlePlay_detached (url id : jsstring) (p : Page) :
  isPlaying (playingAudio p) id = false -> audioRef p = None ->
  handlePlay url id p = (Normal tt, p, []).
Proof. intros H He. unfold handlePlay, bind, get. now rewrite H, He. Qed.

Lemma handlePlayVideo_same (url id : jsstring) (p : Page) :
  isPlaying (playingVideo p) id = true ->
  handlePlayVideo url id p
  = (Normal tt,
     with_playingVideo None (with_videoRef (option_map Media.pause (videoRef p)) p), []).
Proof. intros H. unfold handlePlayVideo, bind, get. now rewrite H. Qed.

Lemma handlePlayVideo_other (url id : jsstring) (p : Page) (el : Media.t) :
  isPlaying (playingVideo p) id = false -> videoRef p = Some el ->
  handlePlayVideo url id p
  = (Normal tt,
     with_playingVideo (Some id)
       (with_videoRef (Some (Media.play (Media.setSrc url el))) p), []).
Proof. intros H He. unfold handlePlayVideo, bind, get. now rewrite H, He. Qed.

Lemma handlePlayVideo_detached (url id : jsstring) (p : Page) :
  isPlaying (playingVideo p) id = false -> videoRef p = None ->
  handlePlayVideo url id p = (Normal tt, p, []).
Proof. intros H He. unfold handlePlayVideo, bind, get. now rewrite H, He. Qed.

Lemma orEmpty_Some (s : jsstring) : orEmpty (Some s) = s.
Proof. now destruct s. Qed.

Lemma isPlaying_true (m : option jsstring) (id : jsstring) :
  isPlaying m id = true <-> m = Some id.
Proof.
  destruct m as [x|]; cbn; [|split; discriminate].
  rewrite eqb_eq. split; congruence.
Qed.

Lemma isPlaying_false (m : option jsstring) (id : jsstring) :
  isPlaying m id = false <-> m <> Some id.
Proof.
  rewrite <- isPlaying_true. destruct (isPlaying m id); split; congruence.
Qed.

(** ** Every handler keeps the page mounted *)

Lemma sameMount_revalidated (key : QueryKey) (p p' : Page) :
  (fileInputRef p <> None -> fileInputRef p' <> None) ->
  audioRef p' = audioRef p -> videoRef p' = videoRef p ->
  queryCache p' = revalidated key (queryCache p) -> sameMount p p'.
Proof.
  intros Hf Ha Hv Hc. unfold sameMount. rewrite Ha, Hv. repeat split; auto.
  exists (revalidate key). rewrite <- revalidated_map.
  repeat split; try assumption; intros q;
    [apply revalidate_queryKey|apply revalidate_active].
Qed.

Ltac same_cache := apply sameMount_refl_cache; cbn; auto; discriminate.

Lemma dispatch_sameMount (k : PageKind) (ev : Event) (p : Page) :
  sameMount p (after (dispatch k ev p)).
Proof.
  destruct ev as [files|v| |r|file|r|file|fav| | | | |key d]; cbn [dispatch].
  - destruct (firstFile files) as [f|] eqn:Hf.
    + destruct (includes allowedTypes (File.type f)) eqn:Ht.
      * rewrite (handleFileSelect_accept files f p Hf Ht). same_cache.
      * rewrite (handleFileSelect_reject files f p Hf Ht). same_cache.
    + rewrite (handleFileSelect_none files p Hf). same_cache.
  - same_cache.
  - destruct (selectedFile p) as [f|] eqn:Hf.
    + destruct (trim (marchName p)) as [|c s] eqn:Hn.
      * rewrite handleUpload_blocked by now right. same_cache.
      * rewrite (handleUpload_sends k p f Hf) by now rewrite Hn. same_cache.
    + rewrite handleUpload_blocked by now left. same_cache.
  - destruct (uploadMutationFn r) as [j|e] eqn:Hr.
    + rewrite (uploadSettled_success k r j p Hr). unfold after. cbn [fst snd].
      apply sameMount_revalidated with (key := [KStr (str "/api/music-files")]);
        destruct (fileInputRef p); cbn; auto; discriminate.
    + rewrite (uploadSettled_failure k r e p Hr). same_cache.
  - same_cache.
  - destruct (deleteMutationFn r) as [[]|e] eqn:Hr.
    + rewrite (deleteSettled_success k r p Hr). unfold after. cbn [fst snd].
      apply sameMount_revalidated with (key := [KStr (str "/api/music-files")]);
        cbn; auto.
    + rewrite (deleteSettled_failure k r e p Hr). same_cache.
  - unfold clickPlayUploaded.
    destruct (isPlaying (playingAudio p) (MusicFile.id file)) eqn:Hp.
    + rewrite handlePlay_same by assumption.
      apply sameMount_refl_cache; cbn; auto. now destruct (audioRef p).
    + destruct (audioRef p) as [el|] eqn:He.
      * rewrite (handlePlay_other _ _ p el Hp He). same_cache.
      * rewrite (handlePlay_detached _ _ p Hp He). same_cache.
  - assert (V : forall url id, sameMount p (after (handlePlayVideo url id p))).
    { intros url id. destruct (isPlaying (playingVideo p) id) eqn:Hp.
      - rewrite handlePlayVideo_same by assumption.
        apply sameMount_refl_cache; cbn; auto. now destruct (videoRef p).
      - destruct (videoRef p) as [el|] eqn:He.
        + rewrite (handlePlayVideo_other _ _ p el Hp He). same_cache.
        + rewrite (handlePlayVideo_detached _ _ p Hp He). same_cache. }
    assert (F : forall fn id, sameMount p (after (handlePlayFavorite k fn id p))).
    { intros [fn|] id; cbn [handlePlayFavorite]; [|same_cache].
      destruct (endsWith fn (str ".mp4")); [apply V|same_cache]. }
    destruct k; cbn [clickFavorite]; [apply F|].
    destruct (Favorite.filename fav) as [fn|]; cbn [handlePlayFavorite orEmpty].
    + destruct (endsWith _ (str ".mp4")); [apply V|same_cache].
    + same_cache.
  - same_cache.
  - same_cache.
  - same_cache.
  - same_cache.
  - apply sameMount_map_cache
      with (f := fun q => if keyEqb (Query.queryKey q) key then Query.resolve d q else q);
      try reflexivity; intros q; now destruct (keyEqb (Query.queryKey q) key).
Qed.

(** A mounted page keeps its elements and its list query, whatever
    happens. *)
Lemma reachable_mounted (k : PageKind) (p : Page) : reachable k p -> mounted k p.
Proof.
  induction 1 as [|p ev _ IH].
  - apply mounted_initial.
  - exact (sameMount_mounted k p _ (dispatch_sameMount k ev p) IH).
Qed.

(** ** The playback machine *)

(** The audio handler refines the two-state machine of the specification,
    and so does the video handler. *)
Lemma handlePlay_refines (url id : jsstring) (p : Page) (el : Media.t) :
  audioRef p = Some el ->
  exists el',
    audioRef (after (handlePlay url id p)) = Some el'
    /\ (PlaybackSpec.ofMarker (playingAudio (after (handlePlay url id p))),
        PlaybackSpec.ofMedia el')
       = PlaybackSpec.toggle url id (PlaybackSpec.ofMarker (playingAudio p))
                             (PlaybackSpec.ofMedia el).
Proof.
  intros He. destruct (isPlaying (playingAudio p) id) eqn:Hp.
  - rewrite (handlePlay_same url id p Hp). unfold after. cbn [fst snd].
    exists (Media.pause el). cbn. rewrite He. split; [reflexivity|].
    apply isPlaying_true in Hp. rewrite Hp. cbn. now rewrite eqb_refl.
  - rewrite (handlePlay_other url id p el Hp He). unfold after. cbn [fst snd].
    exists (Media.play (Media.setSrc url el)). split; [reflexivity|]. cbn.
    destruct (playingAudio p) as [cur|]; cbn in *; [now rewrite Hp|reflexivity].
Qed.

Lemma handlePlayVideo_refines (url id : jsstring) (p : Page) (el : Media.t) :
  videoRef p = Some el ->
  exists el',
    videoRef (after (handlePlayVideo url id p)) = Some el'
    /\ (PlaybackSpec.ofMarker (playingVideo (after (handlePlayVideo url id p))),
        PlaybackSpec.ofMedia el')
       = PlaybackSpec.toggle url id (PlaybackSpec.ofMarker (playingVideo p))
                             (PlaybackSpec.ofMedia el).
Proof.
  intros He. destruct (isPlaying (playingVideo p) id) eqn:Hp.
  - rewrite (handlePlayVideo_same url id p Hp). unfold after. cbn [fst snd].
    exists (Media.pause el). cbn. rewrite He. split; [reflexivity|].
    apply isPlaying_true in Hp. rewrite Hp. cbn. now rewrite eqb_refl.
  - rewrite (handlePlayVideo_other url id p el Hp He). unfold after. cbn [fst snd].
    exists (Media.play (Media.setSrc url el)). split; [reflexivity|]. cbn.
    destruct (playingVideo p) as [cur|]; cbn in *; [now rewrite Hp|reflexivity].
Qed.

(** The toggle of one media kind, spelled out. *)
Lemma handlePlay_toggle (url id : jsstring) (p : Page) (el : Media.t) :
  audioRef p = Some el ->
  (playingAudio p = Some id ->
     audioRef (after (handlePlay url id p)) = Some (Media.pause el)
     /\ playingAudio (after (handlePlay url id p)) = None)
  /\ (playingAudio p <> Some id ->
     audioRef (after (handlePlay url id p)) = Some (Media.play (Media.setSrc url el))
     /\ playingAudio (after (handlePlay url id p)) = Some id).
Proof.
  intros He. split; intros Hp.
  - apply isPlaying_true in Hp. rewrite (handlePlay_same url id p Hp). cbn.
    now rewrite He.
  - apply isPlaying_false in Hp. now rewrite (handlePlay_other url id p el Hp He).
Qed.

Lemma handlePlayVideo_toggle (url id : jsstring) (p : Page) (el : Media.t) :
  videoRef p = Some el ->
  (playingVideo p = Some id ->
     videoRef (after (handlePlayVideo url id p)) = Some (Media.pause el)
     /\ playingVideo (after (handlePlayVideo url id p)) = None)
  /\ (playingVideo p <> Some id ->
     videoRef (after (handlePlayVideo url id p)) = Some (Media.play (Media.setSrc url el))
     /\ playingVideo (after (handlePlayVideo url id p)) = Some id).
Proof.
  intros He. split; intros Hp.
  - apply isPlaying_true in Hp. rewrite (handlePlayVideo_same url id p Hp). cbn.
    now rewrite He.
  - apply isPlaying_false in Hp. now rewrite (handlePlayVideo_other url id p el Hp He).
Qed.

(** The two machines are independent: a toggle of one kind leaves the marker
    and the element of the other kind alone. *)
Lemma handlePlay_frame (url id : jsstring) (p : Page) :
  playingVideo (after (handlePlay url id p)) = playingVideo p
  /\ videoRef (after (handlePlay url id p)) = videoRef p.
Proof.
  unfold handlePlay, bind, get.
  destruct (isPlaying (playingAudio p) id); [now cbn|].
  destruct (audioRef p); now cbn.
Qed.

Lemma handlePlayVideo_frame (url id : jsstring) (p : Page) :
  playingAudio (after (handlePlayVideo url id p)) = playingAudio p
  /\ audioRef (after (handlePlayVideo url id p)) = audioRef p.
Proof.
  unfold handlePlayVideo, bind, get.
  destruct (isPlaying (playingVideo p) id); [now cbn|].
  destruct (videoRef p); now cbn.
Qed.

(** C1: on a mounted page, for the audio element and for the video element,
    a toggle on the id the marker holds pauses the shared element and
    empties the marker; a toggle on any other id (marker empty or holding
    another id) sets the element's source to the requested URL, starts
    playback and puts the id in the marker; this is the toggle of the
    two-state machine of the specification; and the ended and error events
    of either element empty its marker whatever it held. *)
Theorem C1_playback_toggle_machine (k : PageKind) (p : Page) (url id : jsstring) :
  mounted k p ->
  (exists a a',
      audioRef p = Some a
      /\ handlePlay url id p = (Normal tt, after (handlePlay url id p), [])
      /\ audioRef (after (handlePlay url id p)) = Some a'
      /\ (playingAudio p = Some id ->
          Media.paused a' = true
          /\ playingAudio (after (handlePlay url id p)) = None)
      /\ (playingAudio p <> Some id ->
          Media.src a' = url /\ Media.paused a' = false
          /\ playingAudio (after (handlePlay url id p)) = Some id)
      /\ (PlaybackSpec.ofMarker (playingAudio (after (handlePlay url id p))),
          PlaybackSpec.ofMedia a')
         = PlaybackSpec.toggle url id (PlaybackSpec.ofMarker (playingAudio p))
                               (PlaybackSpec.ofMedia a))
  /\ (exists v v',
      videoRef p = Some v
      /\ handlePlayVideo url id p = (Normal tt, after (handlePlayVideo url id p), [])
      /\ videoRef (after (handlePlayVideo url id p)) = Some v'
      /\ (playingVideo p = Some id ->
          Media.paused v' = true
          /\ playingVideo (after (handlePlayVideo url id p)) = None)
      /\ (playingVideo p <> Some id ->
          Media.src v' = url /\ Media.paused v' = false
          /\ playingVideo (after (handlePlayVideo url id p)) = Some id)
      /\ (PlaybackSpec.ofMarker (playingVideo (after (handlePlayVideo url id p))),
          PlaybackSpec.ofMedia v')
         = PlaybackSpec.toggle url id (PlaybackSpec.ofMarker (playingVideo p))
                               (PlaybackSpec.ofMedia v))
  /\ playingAudio (after (audioOnEnded p)) = None
  /\ playingAudio (after (audioOnError p)) = None
  /\ playingVideo (after (videoOnEnded p)) = None
  /\ playingVideo (after (videoOnError p)) = None.
Proof.
  intros (_ & Ha & Hv & _).
  destruct (audioRef p) as [a|] eqn:Ea; [clear Ha|contradiction].
  destruct (videoRef p) as [v|] eqn:Ev; [clear Hv|contradiction].
  split; [|split; [|now cbn]].
  - destruct (handlePlay_refines url id p a Ea) as (a' & Ea' & R).
    destruct (handlePlay_toggle url id p a Ea) as [Same Other].
    exists a, a'. split; [reflexivity|]. split.
    { destruct (isPlaying (playingAudio p) id) eqn:Hp.
      - now rewrite (handlePlay_same url id p Hp).
      - now rewrite (handlePlay_other url id p a Hp Ea). }
    split; [exact Ea'|]. split; [|split; [|exact R]].
    + intros Hp. destruct (Same Hp) as [E1 E2]. rewrite Ea' in E1.
      injection E1 as ->. now split.
    + intros Hp. destruct (Other Hp) as [E1 E2]. rewrite Ea' in E1.
      injection E1 as ->. now repeat split.
  - destruct (handlePlayVideo_refines url id p v Ev) as (v' & Ev' & R).
    destruct (handlePlayVideo_toggle url id p v Ev) as [Same Other].
    exists v, v'. split; [reflexivity|]. split.
    { destruct (isPlaying (playingVideo p) id) eqn:Hp.
      - now rewrite (handlePlayVideo_same url id p Hp).
      - now rewrite (handlePlayVideo_other url id p v Hp Ev). }
    split; [exact Ev'|]. split; [|split; [|exact R]].
    + intros Hp. destruct (Same Hp) as [E1 E2]. rewrite Ev' in E1.
      injection E1 as ->. now split.
    + intros Hp. destruct (Other Hp) as [E1 E2]. rewrite Ev' in E1.
      injection E1 as ->. now repeat split.
Qed.

Ltac mounted_now :=
  unfold mounted, listObserved; cbn;
  repeat split; try discriminate;
  eexists; repeat split; [left; reflexivity|reflexivity|reflexivity].

Lemma C1_playback_toggle_machine_witness :
  mounted Marches (initialPage Marches)
  /\ playingAudio (after (handlePlay (str "/uploads/a.mp3") (str "7")
                                      (initialPage Marches))) = Some (str "7")
  /\ playingVideo (after (videoOnError onuncuYilPlaying)) = None.
Proof.
  split; [mounted_now|].
  assert (M : mounted Marches (initialPage Marches)) by mounted_now.
  destruct (C1_playback_toggle_machine Marches (initialPage Marches)
              (str "/uploads/a.mp3") (str "7") M)
    as [(a & a' & _ & _ & _ & _ & Other & _) _].
  split; [apply Other; discriminate|reflexivity].
Defined.

(** ** Favorites *)

(** C2: a favorite without a filename.  On the Music page the click shows
    the informational toast and touches nothing else; on the Marches page
    the handler throws a TypeError on reading [endsWith] and shows
    nothing. *)
Theorem C2_favorite_without_filename (fav : Favorite.t) (p : Page) :
  Favorite.filename fav = None ->
  clickFavorite Music fav p
  = (Normal tt, p,
     [EToast (infoToast (str " çalmak için gerçek dosya gerekiyor"))])
  /\ (exists msg, clickFavorite Marches fav p = (Throw (TypeError msg), p, []))
  /\ trace (clickFavorite Marches fav p) = [].
Proof.
  intros H. unfold clickFavorite. rewrite H.
  split; [reflexivity|]. split; [eexists|]; reflexivity.
Qed.

Lemma C2_favorite_without_filename_witness :
  Favorite.filename izmirMarsi = None
  /\ trace (clickFavorite Marches izmirMarsi (initialPage Marches)) = [].
Proof.
  split; [reflexivity|].
  exact (proj2 (proj2 (C2_favorite_without_filename izmirMarsi
                         (initialPage Marches) eq_refl))).
Defined.

(** With a filename at hand the two call sites pass the same argument. *)
Lemma clickFavorite_Some (k : PageKind) (fav : Favorite.t) (fn : jsstring) (p : Page) :
  Favorite.filename fav = Some fn ->
  clickFavorite k fav p = handlePlayFavorite k (Some fn) (Favorite.id fav) p.
Proof.
  intros H. unfold clickFavorite. rewrite H. destruct k; [reflexivity|].
  now rewrite orEmpty_Some.
Qed.

(** C9 as stated fails on a favorite that is already playing: the second
    click on the row of [onuncuYil] pauses the video element and empties the
    marker, it does not start playback. *)
Lemma C9_click_playing_favorite_pauses :
  reachable Marches onuncuYilPlaying
  /\ Favorite.filename onuncuYil = Some (str "onuncu_yil.mp4")
  /\ endsWith (str "onuncu_yil.mp4") (str ".mp4") = true
  /\ playingVideo onuncuYilPlaying = Some (Favorite.id onuncuYil)
  /\ videoRef (after (clickFavorite Marches onuncuYil onuncuYilPlaying))
     = Some {| Media.src := str "/videos/marches/onuncu_yil.mp4"; Media.paused := true |}
  /\ playingVideo (after (clickFavorite Marches onuncuYil onuncuYilPlaying)) = None
  /\ ~ (exists el,
          videoRef (after (clickFavorite Marches onuncuYil onuncuYilPlaying)) = Some el
          /\ Media.src el = str "/videos/marches/onuncu_yil.mp4"
          /\ Media.paused el = false).
Proof.
  split; [apply reach_step, reach_init|].
  repeat split; try reflexivity.
  intros (el & E & _ & Hp). vm_compute in E. injection E as <-. discriminate.
Qed.

(** C9 (amended): a favorite whose filename ends with [.mp4] is handed to
    the video toggle with the page's directory in front of the filename
    ([/videos/marches/] on the Marches page, [/videos/music/] on the Music
    page): when it is not the video the marker holds, the video element gets
    that URL as source, plays, and the marker takes its id; when it is, the
    click pauses the element and empties the marker.  A favorite whose
    filename does not end with [.mp4] gets the informational toast and
    nothing is played. *)
Theorem C9_favorite_click (k : PageKind) (fav : Favorite.t) (fn : jsstring) (p : Page) :
  mounted k p ->
  Favorite.filename fav = Some fn ->
  (endsWith fn (str ".mp4") = true ->
     clickFavorite k fav p = handlePlayVideo (videoDir k ++ fn) (Favorite.id fav) p
     /\ exists v v',
         videoRef p = Some v
         /\ videoRef (after (clickFavorite k fav p)) = Some v'
         /\ (playingVideo p <> Some (Favorite.id fav) ->
             Media.src v' = videoDir k ++ fn /\ Media.paused v' = false
             /\ playingVideo (after (clickFavorite k fav p)) = Some (Favorite.id fav)
             /\ trace (clickFavorite k fav p) = [])
         /\ (playingVideo p = Some (Favorite.id fav) ->
             v' = Media.pause v
             /\ playingVideo (after (clickFavorite k fav p)) = None))
  /\ (endsWith fn (str ".mp4") = false ->
     clickFavorite k fav p
     = (Normal tt, p,
        [EToast (infoToast (fn ++ str " çalmak için gerçek dosya gerekiyor"))])).
Proof.
  intros (_ & _ & Hv & _) Hf. rewrite (clickFavorite_Some k fav fn p Hf).
  cbn [handlePlayFavorite]. split; intros He; rewrite He; [|reflexivity].
  split; [reflexivity|].
  destruct (videoRef p) as [v|] eqn:Ev; [clear Hv|contradiction].
  destruct (handlePlayVideo_toggle (videoDir k ++ fn) (Favorite.id fav) p v Ev)
    as [Same Other].
  destruct (isPlaying (playingVideo p) (Favorite.id fav)) eqn:Hp.
  - apply isPlaying_true in Hp. destruct (Same Hp) as [E1 E2].
    exists v, (Media.pause v). repeat split; try assumption; congruence.
  - pose proof Hp as Hp'. apply isPlaying_false in Hp'.
    destruct (Other Hp') as [E1 E2].
    exists v, (Media.play (Media.setSrc (videoDir k ++ fn) v)).
    repeat split; try assumption; try congruence.
    now rewrite (handlePlayVideo_other _ _ p v Hp Ev).
Qed.

Lemma C9_favorite_click_witness :
  mounted Marches (initialPage Marches)
  /\ Favorite.filename onuncuYil = Some (str "onuncu_yil.mp4")
  /\ clickFavorite Marches onuncuYil (initialPage Marches)
     = handlePlayVideo (str "/videos/marches/onuncu_yil.mp4") (str "1")
                       (initialPage Marches).
Proof.
  split; [mounted_now|]. split; [reflexivity|].
  assert (M : mounted Marches (initialPage Marches)) by mounted_now.
  destruct (C9_favorite_click Marches onuncuYil (str "onuncu_yil.mp4")
              (initialPage Marches) M eq_refl) as [Video _].
  exact (proj1 (Video eq_refl)).
Defined.

(** ** The upload panel *)

(** C3: when a selection is accepted, the selected file becomes the draft's
    file and the draft name is the file's name with its final [.ext] suffix
    removed, [.ext] being a dot and one or more code units that are neither
    a dot nor a slash: a name that is a base, a dot and such an extension
    yields the base, a name that does not end so is taken as it is; the
    [replace] of the handler computes what the specification calls the name
    without its final extension. *)
Theorem C3_draft_name_strips_final_ext
    (files : option (list File.t)) (file : File.t) (p : Page) :
  firstFile files = Some file ->
  In (File.type file) allowedTypes ->
  handleFileSelect files p = (Normal tt, after (handleFileSelect files p), [])
  /\ selectedFile (after (handleFileSelect files p)) = Some file
  /\ marchName (after (handleFileSelect files p))
     = ExtSpec.stripFinalExt (File.name file)
  /\ (forall base e,
        File.name file = base ++ dot :: e -> ExtSpec.isExt e = true ->
        marchName (after (handleFileSelect files p)) = base)
  /\ ((forall base e, File.name file = base ++ dot :: e -> ExtSpec.isExt e = false) ->
      marchName (after (handleFileSelect files p)) = File.name file).
Proof.
  intros Hf Ht. apply includes_In in Ht.
  rewrite (handleFileSelect_accept files file p Hf Ht). unfold after. cbn.
  split; [reflexivity|]. split; [reflexivity|].
  split; [apply replaceExt_stripFinalExt|]. split.
  - intros base e -> He. now apply replaceExt_app.
  - apply replaceExt_keep.
Qed.

Lemma C3_draft_name_strips_final_ext_witness :
  firstFile (Some [zeybek]) = Some zeybek
  /\ In (File.type zeybek) allowedTypes
  /\ marchName (after (handleFileSelect (Some [zeybek]) (initialPage Marches)))
     = str "zeybek".
Proof.
  split; [reflexivity|]. split; [left; reflexivity|].
  destruct (C3_draft_name_strips_final_ext (Some [zeybek]) zeybek
              (initialPage Marches) eq_refl (or_introl eq_refl))
    as (_ & _ & _ & Cut & _).
  exact (Cut (str "zeybek") (str "mp3") eq_refl eq_refl).
Defined.

(** C4: a selection whose MIME type is not one of [audio/mpeg],
    [audio/mp3], [audio/mp4], [video/mp4] shows one destructive toast and
    leaves the page, and with it the selected file and the name of the
    draft, as it was. *)
Theorem C4_rejected_type_keeps_draft
    (files : option (list File.t)) (file : File.t) (p : Page) :
  firstFile files = Some file ->
  ~ In (File.type file)
       [str "audio/mpeg"; str "audio/mp3"; str "audio/mp4"; str "video/mp4"] ->
  (exists t, handleFileSelect files p = (Normal tt, p, [EToast t])
             /\ Toast.destructive t = true)
  /\ selectedFile (after (handleFileSelect files p)) = selectedFile p
  /\ marchName (after (handleFileSelect files p)) = marchName p.
Proof.
  intros Hf Ht. apply (includes_not_In allowedTypes) in Ht.
  rewrite (handleFileSelect_reject files file p Hf Ht).
  split; [|now split]. eexists. split; reflexivity.
Qed.

Lemma C4_rejected_type_keeps_draft_witness :
  firstFile (Some [notes]) = Some notes
  /\ ~ In (File.type notes)
          [str "audio/mpeg"; str "audio/mp3"; str "audio/mp4"; str "video/mp4"]
  /\ selectedFile (after (handleFileSelect (Some [notes]) draftPage))
     = Some zeybek.
Proof.
  assert (N : ~ In (File.type notes)
                   [str "audio/mpeg"; str "audio/mp3"; str "audio/mp4"; str "video/mp4"]).
  { intros H. repeat (destruct H as [H|H]; [discriminate|]). exact H. }
  split; [reflexivity|]. split; [exact N|].
  destruct (C4_rejected_type_keeps_draft (Some [notes]) notes draftPage eq_refl N)
    as (_ & Keep & _).
  rewrite Keep. reflexivity.
Defined.

(** C10: a change event that carries no file ([files] is [null] or an empty
    list) leaves the whole page as it was and produces nothing: no toast, no
    request. *)
Theorem C10_no_file_no_change (files : option (list File.t)) (p : Page) :
  files = None \/ files = Some [] ->
  handleFileSelect files p = (Normal tt, p, []).
Proof.
  intros [->| ->]; reflexivity.
Qed.

Lemma C10_no_file_no_change_witness :
  (Some [] = (None : option (list File.t)) \/ Some [] = Some ([] : list File.t))
  /\ handleFileSelect (Some []) draftPage = (Normal tt, draftPage, []).
Proof.
  split; [right; reflexivity|].
  apply C10_no_file_no_change. right. reflexivity.
Defined.

(** C5: a submit with no file selected, or with a name whose trimmed form is
    empty (a name of white space only, the empty name among them), shows one
    destructive toast, sends nothing to the network and leaves the page as
    it was. *)
Theorem C5_blocked_submit_sends_nothing (k : PageKind) (p : Page) :
  selectedFile p = None
  \/ trim (marchName p) = []
  \/ forallb isWhiteSpace (marchName p) = true ->
  (exists t, handleUpload k p = (Normal tt, p, [EToast t])
             /\ Toast.destructive t = true)
  /\ existsb isRequest (trace (handleUpload k p)) = false.
Proof.
  intros H.
  assert (B : selectedFile p = None \/ trim (marchName p) = []).
  { destruct H as [H|[H|H]]; [now left|now right|right; now apply trim_nil]. }
  rewrite (handleUpload_blocked k p B). split; [|reflexivity].
  eexists. split; reflexivity.
Qed.

Lemma C5_blocked_submit_sends_nothing_witness :
  (selectedFile (with_marchName (str "   ") draftPage) = None
   \/ trim (marchName (with_marchName (str "   ") draftPage)) = []
   \/ forallb isWhiteSpace (marchName (with_marchName (str "   ") draftPage)) = true)
  /\ existsb isRequest
       (trace (handleUpload Marches (with_marchName (str "   ") draftPage))) = false.
Proof.
  split; [right; right; reflexivity|].
  apply C5_blocked_submit_sends_nothing. right. right. reflexivity.
Defined.

(** A submit that is not blocked sends the three fields. *)
Example handleUpload_draftPage :
  trace (handleUpload Marches draftPage)
  = [EFetch (str "/api/music-files") (str "POST")
       (Some [ (str "file", EntryFile zeybek);
               (str "name", EntryString (str "zeybek"));
               (str "type", EntryString (str "march")) ])].
Proof. reflexivity. Qed.

(** C6 as stated fails twice on the Marches page with [zeybek.mp3] picked
    and the upload sent while the first fetch of the list is still out: when
    the upload succeeds there (201 with a JSON body) the list query is marked
    but no request for it starts, the fetch that is running being left to
    complete; and when the response is 2xx with a body that is not JSON the
    draft is not reset, the upload being treated as failed. *)
Lemma C6_first_fetch_out_or_body_not_json :
  reachable Marches uploadingPage
  /\ ~ In (ERefetch (uploadedFilesKey Marches))
          (trace (uploadSettled Marches (Response 201 (Some JNull)) uploadingPage))
  /\ existsb isRequest
       (trace (uploadSettled Marches (Response 201 (Some JNull)) uploadingPage))
     = false
  /\ selectedFile (after (uploadSettled Marches (Response 200 None) uploadingPage))
     = Some zeybek
  /\ marchName (after (uploadSettled Marches (Response 200 None) uploadingPage))
     = str "zeybek".
Proof.
  split; [do 2 apply reach_step; apply reach_init|].
  split; [|now repeat split].
  intros H. vm_compute in H. destruct H as [H|[]]. discriminate H.
Qed.

(** C6 (amended): when the upload request of a mounted page is answered 2xx
    with a body that reads as JSON, the selected file is cleared, the name is
    empty, the file input is empty, the list query of the page is marked
    invalidated and the confirmation is shown; a request that refetches the
    list starts exactly when the observed list query is idle or has data,
    and none starts while its first fetch is still out.  A 2xx answer whose
    body does not read as JSON is a failed upload: the destructive toast is
    shown and the draft, the file input and the cache are kept. *)
Theorem C6_upload_success_resets_draft (k : PageKind) (p : Page) (status : Z) :
  mounted k p ->
  (200 <= status <= 299)%Z ->
  (forall body,
      completion (uploadSettled k (Response status (Some body)) p) = Normal tt
      /\ selectedFile (after (uploadSettled k (Response status (Some body)) p)) = None
      /\ marchName (after (uploadSettled k (Response status (Some body)) p)) = []
      /\ fileInputRef (after (uploadSettled k (Response status (Some body)) p))
         = Some {| Input.value := [] |}
      /\ (exists q,
            In q (queryCache (after (uploadSettled k (Response status (Some body)) p)))
            /\ Query.queryKey q = uploadedFilesKey k
            /\ Query.active q = true
            /\ Query.isInvalidated q = true)
      /\ (forall q,
            In q (queryCache (after (uploadSettled k (Response status (Some body)) p))) ->
            Query.queryKey q = uploadedFilesKey k ->
            Query.isInvalidated q = true)
      /\ (In (ERefetch (uploadedFilesKey k))
             (trace (uploadSettled k (Response status (Some body)) p))
          <-> exists q, In q (queryCache p)
                        /\ Query.queryKey q = uploadedFilesKey k
                        /\ Query.active q = true
                        /\ (Query.fetchStatus q = FetchIdle
                            \/ Query.data q <> NoData))
      /\ In (EToast (successToast (uploadedText k)))
            (trace (uploadSettled k (Response status (Some body)) p)))
  /\ (trace (uploadSettled k (Response status None) p)
      = [EToast (errorToast (str "Dosya yüklenemedi"))]
      /\ selectedFile (after (uploadSettled k (Response status None) p))
         = selectedFile p
      /\ marchName (after (uploadSettled k (Response status None) p)) = marchName p
      /\ fileInputRef (after (uploadSettled k (Response status None) p))
         = fileInputRef p
      /\ queryCache (after (uploadSettled k (Response status None) p))
         = queryCache p).
Proof.
  intros (Hf & _ & _ & q & Hin & Hk & Ha) Hs.
  assert (O : ok status = true).
  { unfold ok. destruct (Z.leb_spec 200 status); [|lia].
    destruct (Z.leb_spec status 299); [|lia]. reflexivity. }
  split.
  - intros body.
    assert (R : uploadMutationFn (Response status (Some body)) = Normal body)
      by (cbn; now rewrite O).
    rewrite (uploadSettled_success k _ body p R). unfold completion, after, trace.
    cbn [fst snd].
    destruct (listObserved_revalidated k (queryCache p) q Hin Hk Ha)
      as [(q' & Hin' & Hk' & Ha' & Hi') _].
    destruct (fileInputRef p) as [el|]; [clear Hf|contradiction]. cbn.
    do 4 (split; [reflexivity|]). split; [|split; [|split]].
    + now exists q'.
    + intros q0 Hq0 Hk0. exact (revalidated_list_query k _ q0 Hq0 Hk0).
    + apply list_refetch_iff.
    + apply in_or_app. right. now left.
  - assert (R : uploadMutationFn (Response status None)
                = Throw (SyntaxError (str "Unexpected token")))
      by (cbn; now rewrite O).
    rewrite (uploadSettled_failure k _ _ p R). now repeat split.
Qed.

Lemma C6_upload_success_resets_draft_witness :
  mounted Marches listedDraftPage
  /\ (200 <= 201 <= 299)%Z
  /\ selectedFile (after (uploadSettled Marches (Response 201 (Some JNull))
                            listedDraftPage)) = None
  /\ In (ERefetch (uploadedFilesKey Marches))
        (trace (uploadSettled Marches (Response 201 (Some JNull)) listedDraftPage)).
Proof.
  split; [mounted_now|]. split; [lia|].
  assert (M : mounted Marches listedDraftPage) by mounted_now.
  assert (S : (200 <= 201 <= 299)%Z) by lia.
  destruct (C6_upload_success_resets_draft Marches listedDraftPage 201 M S)
    as [Ok _].
  destruct (Ok JNull) as (_ & Clear & _ & _ & _ & _ & Refetch & _).
  split; [exact Clear|]. apply Refetch.
  eexists. split; [left; reflexivity|].
  split; [reflexivity|]. split; [reflexivity|]. now left.
Defined.

(** C7: when the upload fails (the transport fails, or the response is not
    2xx), one destructive toast is shown and the page is as it was but for
    the pending flag of the mutation: the selected file and the name of the
    draft are kept. *)
Theorem C7_upload_failure_keeps_draft (k : PageKind) (p : Page) (r : FetchResult) :
  r = NetworkError
  \/ (exists status json, r = Response status json /\ ~ (200 <= status <= 299)%Z) ->
  (exists t, trace (uploadSettled k r p) = [EToast t] /\ Toast.destructive t = true)
  /\ completion (uploadSettled k r p) = Normal tt
  /\ after (uploadSettled k r p) = with_uploadIsPending false p
  /\ selectedFile (after (uploadSettled k r p)) = selectedFile p
  /\ marchName (after (uploadSettled k r p)) = marchName p
  /\ fileInputRef (after (uploadSettled k r p)) = fileInputRef p.
Proof.
  intros H.
  assert (F : r = NetworkError
              \/ exists status json, r = Response status json /\ ok status = false).
  { destruct H as [H|(status & json & -> & H)]; [now left|right].
    exists status, json. split; [reflexivity|]. unfold ok.
    destruct (Z.leb_spec 200 status); [|reflexivity].
    destruct (Z.leb_spec status 299); [lia|reflexivity]. }
  destruct (uploadMutationFn_rejects r F) as [e He].
  rewrite (uploadSettled_failure k r e p He).
  split; [eexists; split; reflexivity|]. now repeat split.
Qed.

Lemma C7_upload_failure_keeps_draft_witness :
  (Response 500 None = NetworkError
   \/ exists status json,
        Response 500 None = Response status json /\ ~ (200 <= status <= 299)%Z)
  /\ selectedFile (after (uploadSettled Marches (Response 500 None) draftPage))
     = Some zeybek.
Proof.
  assert (F : Response 500 None = NetworkError
              \/ exists status json,
                   Response 500 None = Response status json
                   /\ ~ (200 <= status <= 299)%Z).
  { right. exists 500%Z, None. split; [reflexivity|lia]. }
  split; [exact F|].
  destruct (C7_upload_failure_keeps_draft Marches draftPage (Response 500 None) F)
    as (_ & _ & _ & Keep & _).
  rewrite Keep. reflexivity.
Defined.

(** ** The uploaded-files list *)

Example clickDelete_42 :
  trace (clickDelete file42 (initialPage Marches))
  = [EFetch (str "/api/music-files/42") (str "DELETE") None].
Proof. reflexivity. Qed.

(** C8: on a mounted page the delete button sends DELETE to
    [/api/music-files/] followed by the id of the row; when the request
    succeeds (2xx) the list query of the page is marked invalidated and the
    confirmation is shown, and the list is refetched whenever the observed
    list query is idle or has data, so whenever the row that is deleted is
    on display; when it fails (the transport fails, or the response is not
    2xx, a 404 among them) one destructive toast is shown, nothing is
    invalidated or refetched, and the cache, and with it the rows on display,
    are what they were. *)
Theorem C8_delete_by_id (k : PageKind) (p : Page) (file : MusicFile.t) :
  mounted k p ->
  clickDelete file p
  = (Normal tt, with_deleteIsPending true p,
     [EFetch (str "/api/music-files/" ++ MusicFile.id file) (str "DELETE") None])
  /\ (forall status json,
        (200 <= status <= 299)%Z ->
        (exists q, In q (queryCache (after (deleteSettled k (Response status json) p)))
                   /\ Query.queryKey q = uploadedFilesKey k
                   /\ Query.active q = true)
        /\ (forall q,
              In q (queryCache (after (deleteSettled k (Response status json) p))) ->
              Query.queryKey q = uploadedFilesKey k ->
              Query.isInvalidated q = true)
        /\ (In (ERefetch (uploadedFilesKey k))
               (trace (deleteSettled k (Response status json) p))
            <-> exists q, In q (queryCache p)
                          /\ Query.queryKey q = uploadedFilesKey k
                          /\ Query.active q = true
                          /\ (Query.fetchStatus q = FetchIdle
                              \/ Query.data q <> NoData))
        /\ (onDisplay k p file ->
            In (ERefetch (uploadedFilesKey k))
               (trace (deleteSettled k (Response status json) p)))
        /\ In (EToast (successToast (deletedText k)))
              (trace (deleteSettled k (Response status json) p))
        /\ Toast.destructive (successToast (deletedText k)) = false)
  /\ (forall r,
        r = NetworkError
        \/ (exists status json, r = Response status json /\ ~ (200 <= status <= 299)%Z) ->
        (exists t, trace (deleteSettled k r p) = [EToast t]
                   /\ Toast.destructive t = true)
        /\ queryCache (after (deleteSettled k r p)) = queryCache p
        /\ uploadedFiles k (after (deleteSettled k r p)) = uploadedFiles k p).
Proof.
  intros (_ & _ & _ & q & Hin & Hk & Ha). split; [reflexivity|]. split.
  - intros status json Hs.
    assert (R : deleteMutationFn (Response status json) = Normal tt).
    { cbn. unfold ok.
      destruct (Z.leb_spec 200 status); [|lia].
      destruct (Z.leb_spec status 299); [|lia]. reflexivity. }
    rewrite (deleteSettled_success k _ p R). unfold after, trace. cbn [fst snd].
    destruct (listObserved_revalidated k (queryCache p) q Hin Hk Ha)
      as [(q' & Hin' & Hk' & Ha' & _) _].
    cbn. split; [|split; [|split; [|split; [|split]]]].
    + now exists q'.
    + intros q0 Hq0 Hk0. exact (revalidated_list_query k _ q0 Hq0 Hk0).
    + apply list_refetch_iff.
    + intros (q0 & rows & Hin0 & Hk0 & Ha0 & Hd0 & _).
      apply list_refetch_iff. exists q0. repeat split; try assumption.
      right. rewrite Hd0. discriminate.
    + apply in_or_app. right. now left.
    + now destruct k.
  - intros r H.
    assert (F : r = NetworkError
                \/ exists status json, r = Response status json /\ ok status = false).
    { destruct H as [H|(status & json & -> & H)]; [now left|right].
      exists status, json. split; [reflexivity|]. unfold ok.
      destruct (Z.leb_spec 200 status); [|reflexivity].
      destruct (Z.leb_spec status 299); [lia|reflexivity]. }
    destruct (deleteMutationFn_rejects r F) as [e He].
    rewrite (deleteSettled_failure k r e p He).
    split; [eexists; split; reflexivity|]. now split.
Qed.

Lemma C8_delete_by_id_witness :
  mounted Marches listedPage
  /\ trace (clickDelete file42 listedPage)
     = [EFetch (str "/api/music-files/42") (str "DELETE") None]
  /\ In (ERefetch (uploadedFilesKey Marches))
        (trace (deleteSettled Marches (Response 204 None) listedPage))
  /\ queryCache (after (deleteSettled Marches (Response 404 None) listedPage))
     = queryCache listedPage.
Proof.
  split; [mounted_now|].
  assert (M : mounted Marches listedPage) by mounted_now.
  destruct (C8_delete_by_id Marches listedPage file42 M) as (Req & Ok & Fail).
  split; [now rewrite Req|]. split.
  - assert (S : (200 <= 204 <= 299)%Z) by lia.
    destruct (Ok 204%Z None S) as (_ & _ & _ & Shown & _).
    apply Shown. eexists. exists [file42]. split; [left; reflexivity|].
    split; [reflexivity|]. split; [reflexivity|]. split; [reflexivity|].
    left. reflexivity.
  - apply (Fail (Response 404 None)). right. exists 404%Z, None.
    split; [reflexivity|lia].
Defined.

(** * Further properties of the handlers *)

(** ** What [trim] removes *)

Lemma trimStart_split (s : jsstring) :
  exists l, s = l ++ trimStart s /\ forallb isWhiteSpace l = true.
Proof.
  induction s as [|c r (l & E & Hl)]; [now exists []|].
  cbn [trimStart]. destruct (isWhiteSpace c) eqn:Hc.
  - exists (c :: l). cbn [app forallb]. rewrite Hc, Hl. split; [now f_equal|reflexivity].
  - now exists [].
Qed.

Lemma trimEnd_split (s : jsstring) :
  exists r, s = trimEnd s ++ r /\ forallb isWhiteSpace r = true.
Proof.
  destruct (trimStart_split (rev s)) as (l & E & Hl).
  exists (rev l). rewrite forallb_rev. split; [|exact Hl].
  unfold trimEnd. rewrite <- rev_app_distr, <- E. symmetry. apply rev_involutive.
Qed.

(** The last code unit of what [trimEnd] leaves is not white space. *)
Lemma trimEnd_last (s : jsstring) (c : unit16) :
  hd_error (rev (trimEnd s)) = Some c -> isWhiteSpace c = false.
Proof.
  unfold trimEnd. rewrite rev_involutive.
  destruct (trimStart_head (rev s)) as [E|(d & r & E & Hd)]; rewrite E; cbn.
  - discriminate.
  - now intros [= <-].
Qed.

(** [trim] takes white space off the two ends and nothing else: the string
    is white space, the trimmed string, white space, and a trimmed string
    that is not empty starts and ends with a code unit that is not white
    space. *)
Lemma trim_split (s : jsstring) :
  (exists l r, s = l ++ trim s ++ r
               /\ forallb isWhiteSpace l = true /\ forallb isWhiteSpace r = true)
  /\ (forall c, hd_error (trim s) = Some c -> isWhiteSpace c = false)
  /\ (forall c, hd_error (rev (trim s)) = Some c -> isWhiteSpace c = false).
Proof.
  destruct (trimStart_split s) as (l & El & Hl).
  destruct (trimEnd_split (trimStart s)) as (r & Er & Hr).
  split; [|split].
  - exists l, r. unfold trim. rewrite <- Er. now repeat split.
  - intros c Hc. unfold trim in Hc.
    destruct (trimStart_head s) as [E|(d & t & E & Hd)].
    + rewrite E in Hc. discriminate.
    + rewrite Er in E. destruct (trimEnd (trimStart s)) as [|c' u] eqn:Eu.
      * cbn in E. rewrite E in Hr. cbn in Hr. rewrite Hd in Hr. discriminate.
      * cbn in Hc, E. injection Hc as <-. now injection E as -> _.
  - intros c. apply trimEnd_last.
Qed.

(** ** The upload button and the upload handler *)

Lemma uploadDisabled_false (p : Page) :
  uploadDisabled p = false ->
  exists file, selectedFile p = Some file
               /\ trim (marchName p) <> [] /\ uploadIsPending p = false.
Proof.
  unfold uploadDisabled. destruct (selectedFile p) as [file|]; [|discriminate].
  intros H. apply orb_false_elim in H as [Hn Hp]. exists file.
  repeat split; [|exact Hp]. intros E. rewrite E in Hn. discriminate.
Qed.

(** X1: a click on the upload button while it is enabled sends exactly one
    request, POST [/api/music-files] with the fields [file], [name] and
    [type] in this order, shows no toast, changes nothing of the page but
    the pending flag, and leaves the button disabled. *)
Theorem upload_enabled_click_sends (k : PageKind) (p : Page) :
  uploadDisabled p = false ->
  exists file,
    selectedFile p = Some file
    /\ handleUpload k p
       = (Normal tt, with_uploadIsPending true p,
          [EFetch (str "/api/music-files") (str "POST")
             (Some [ (str "file", EntryFile file);
                     (str "name", EntryString (trim (marchName p)));
                     (str "type", EntryString (typeTag k)) ])])
    /\ uploadDisabled (after (handleUpload k p)) = true.
Proof.
  intros H. destruct (uploadDisabled_false p H) as (file & Hf & Hn & _).
  exists file. split; [exact Hf|].
  rewrite (handleUpload_sends k p file Hf Hn). split; [reflexivity|].
  unfold uploadDisabled, after. cbn. rewrite Hf. apply orb_true_r.
Qed.

Lemma upload_enabled_click_sends_witness :
  uploadDisabled draftPage = false
  /\ uploadDisabled (after (handleUpload Marches draftPage)) = true.
Proof.
  split; [reflexivity|].
  destruct (upload_enabled_click_sends Marches draftPage eq_refl)
    as (file & _ & _ & D).
  exact D.
Defined.

(** X2: the name that goes out with an upload is the draft name without the
    white space at its two ends: the draft name is white space, the sent
    name, white space; the sent name is not empty and neither starts nor
    ends with white space. *)
Theorem upload_sends_trimmed_name (k : PageKind) (p : Page) (file : File.t) :
  selectedFile p = Some file ->
  trim (marchName p) <> [] ->
  exists n l r,
    trace (handleUpload k p)
    = [EFetch (str "/api/music-files") (str "POST")
         (Some [ (str "file", EntryFile file);
                 (str "name", EntryString n);
                 (str "type", EntryString (typeTag k)) ])]
    /\ marchName p = l ++ n ++ r
    /\ forallb isWhiteSpace l = true /\ forallb isWhiteSpace r = true
    /\ n <> []
    /\ (forall c, hd_error n = Some c -> isWhiteSpace c = false)
    /\ (forall c, hd_error (rev n) = Some c -> isWhiteSpace c = false).
Proof.
  intros Hf Hn. rewrite (handleUpload_sends k p file Hf Hn).
  destruct (trim_split (marchName p)) as ((l & r & E & Hl & Hr) & Hh & Ht).
  exists (trim (marchName p)), l, r. repeat split; assumption.
Qed.

Lemma upload_sends_trimmed_name_witness :
  selectedFile (with_marchName (str "  on yil ") draftPage) = Some zeybek
  /\ trim (marchName (with_marchName (str "  on yil ") draftPage)) <> []
  /\ exists n l r,
       trace (handleUpload Marches (with_marchName (str "  on yil ") draftPage))
       = [EFetch (str "/api/music-files") (str "POST")
            (Some [ (str "file", EntryFile zeybek);
                    (str "name", EntryString n);
                    (str "type", EntryString (typeTag Marches)) ])]
       /\ marchName (with_marchName (str "  on yil ") draftPage) = l ++ n ++ r.
Proof.
  split; [reflexivity|]. split; [discriminate|].
  destruct (upload_sends_trimmed_name Marches
              (with_marchName (str "  on yil ") draftPage) zeybek eq_refl)
    as (n & l & r & T & E & _); [discriminate|].
  now exists n, l, r.
Defined.

(** When the upload mutation rejects: the transport failed, the status is
    not 2xx, or the body of a 2xx response does not read as JSON. *)
Lemma uploadMutationFn_Throw (r : FetchResult) :
  (exists e, uploadMutationFn r = Throw e)
  <-> r = NetworkError
      \/ exists status json,
           r = Response status json /\ (~ (200 <= status <= 299)%Z \/ json = None).
Proof.
  split.
  - intros [e H]. destruct r as [|status json]; [now left|right].
    exists status, json. split; [reflexivity|]. cbn in H. unfold ok in H.
    destruct (Z.leb_spec 200 status); [|left; lia].
    destruct (Z.leb_spec status 299); [|left; lia].
    cbn in H. destruct json; [discriminate|now right].
  - intros [->|(status & json & -> & H)]; cbn; [eauto|].
    destruct (negb (ok status)) eqn:Hs; [eauto|].
    destruct H as [H| ->]; [|eauto]. exfalso. apply H.
    apply negb_false_iff in Hs. unfold ok in Hs.
    apply andb_true_iff in Hs as [H1 H2].
    apply Z.leb_le in H1. apply Z.leb_le in H2. lia.
Qed.

Lemma pending_round_trip (p : Page) :
  uploadIsPending p = false ->
  with_uploadIsPending false (with_uploadIsPending true p) = p.
Proof. destruct p. cbn. now intros ->. Qed.

(** X3: a failed upload gives the page back as it was before the click.  A
    click on the enabled upload button followed by the failure of the
    request (transport failure, a status outside 200-299, or a 2xx response
    whose body is not JSON) ends in the very state the click started from,
    so the same click can be made again, and the one effect of the failure
    is the destructive toast. *)
Theorem upload_failure_round_trip (k : PageKind) (p : Page) (r : FetchResult) :
  uploadDisabled p = false ->
  r = NetworkError
  \/ (exists status json,
        r = Response status json /\ (~ (200 <= status <= 299)%Z \/ json = None)) ->
  after (uploadSettled k r (after (handleUpload k p))) = p
  /\ trace (uploadSettled k r (after (handleUpload k p)))
     = [EToast (errorToast (str "Dosya yüklenemedi"))]
  /\ uploadDisabled (after (uploadSettled k r (after (handleUpload k p)))) = false.
Proof.
  intros H Hr. destruct (uploadDisabled_false p H) as (file & Hf & Hn & Hp).
  apply uploadMutationFn_Throw in Hr as [e He].
  rewrite (handleUpload_sends k p file Hf Hn).
  rewrite (uploadSettled_failure k r e _ He). unfold after, trace. cbn [fst snd].
  rewrite (pending_round_trip p Hp). now repeat split.
Qed.

Lemma upload_failure_round_trip_witness :
  uploadDisabled draftPage = false
  /\ (Response 200 None = NetworkError
      \/ exists status json,
           Response 200 None = Response status json
           /\ (~ (200 <= status <= 299)%Z \/ json = None))
  /\ after (uploadSettled Marches (Response 200 None)
              (after (handleUpload Marches draftPage))) = draftPage.
Proof.
  assert (F : Response 200 None = NetworkError
              \/ exists status json,
                   Response 200 None = Response status json
                   /\ (~ (200 <= status <= 299)%Z \/ json = None)).
  { right. exists 200%Z, None. split; [reflexivity|now right]. }
  split; [reflexivity|]. split; [exact F|].
  exact (proj1 (upload_failure_round_trip Marches draftPage (Response 200 None)
                  eq_refl F)).
Defined.

(** X4: after a successful upload the form is closed again: the upload
    button is disabled, and a submit on that page sends nothing and shows the
    destructive toast. *)
Theorem upload_success_blocks_resubmit
    (k : PageKind) (p : Page) (status : Z) (body : Json) :
  (200 <= status <= 299)%Z ->
  uploadDisabled (after (uploadSettled k (Response status (Some body)) p)) = true
  /\ handleUpload k (after (uploadSettled k (Response status (Some body)) p))
     = (Normal tt, after (uploadSettled k (Response status (Some body)) p),
        [EToast (errorToast (str "Lütfen dosya seçin ve isim girin"))]).
Proof.
  intros Hs.
  assert (R : uploadMutationFn (Response status (Some body)) = Normal body).
  { cbn. unfold ok.
    destruct (Z.leb_spec 200 status); [|lia].
    destruct (Z.leb_spec status 299); [|lia]. reflexivity. }
  rewrite (uploadSettled_success k _ body p R). unfold after. cbn [fst snd].
  assert (S : forall q, selectedFile
                (with_uploadIsPending false
                   ((match fileInputRef p with
                     | Some _ => with_fileInputRef (Some {| Input.value := [] |})
                     | None => fun p1 => p1
                     end) (with_marchName [] (with_selectedFile None q)))) = None).
  { intros q. now destruct (fileInputRef p). }
  split.
  - unfold uploadDisabled. now rewrite S.
  - apply handleUpload_blocked. left. apply S.
Qed.

Lemma upload_success_blocks_resubmit_witness :
  (200 <= 201 <= 299)%Z
  /\ uploadDisabled (after (uploadSettled Marches (Response 201 (Some JNull))
                              (after (handleUpload Marches draftPage)))) = true.
Proof.
  assert (S : (200 <= 201 <= 299)%Z) by lia.
  split; [exact S|].
  exact (proj1 (upload_success_blocks_resubmit Marches
                  (after (handleUpload Marches draftPage)) 201 JNull S)).
Defined.

(** X5: selecting a file and submitting at once.  For an accepted file named
    base, dot, extension, whose base is not white space only, the submit
    that follows the selection sends the file under the base with the white
    space at its ends removed, tagged with the category of the page,
    whatever the draft held before. *)
Theorem select_then_submit
    (k : PageKind) (p : Page) (files : option (list File.t)) (file : File.t)
    (base e : jsstring) :
  firstFile files = Some file ->
  In (File.type file) allowedTypes ->
  File.name file = base ++ dot :: e ->
  ExtSpec.isExt e = true ->
  trim base <> [] ->
  trace (handleUpload k (after (handleFileSelect files p)))
  = [EFetch (str "/api/music-files") (str "POST")
       (Some [ (str "file", EntryFile file);
               (str "name", EntryString (trim base));
               (str "type", EntryString (typeTag k)) ])].
Proof.
  intros Hf Ht En He Hb. apply includes_In in Ht.
  rewrite (handleFileSelect_accept files file p Hf Ht). unfold after. cbn [fst snd].
  rewrite En, (replaceExt_app base e He).
  rewrite (handleUpload_sends k _ file); [reflexivity|reflexivity|exact Hb].
Qed.

Lemma select_then_submit_witness :
  firstFile (Some [zeybek]) = Some zeybek
  /\ In (File.type zeybek) allowedTypes
  /\ File.name zeybek = str "zeybek" ++ dot :: str "mp3"
  /\ ExtSpec.isExt (str "mp3") = true
  /\ trim (str "zeybek") <> []
  /\ trace (handleUpload Music
              (after (handleFileSelect (Some [zeybek]) (initialPage Music))))
     = [EFetch (str "/api/music-files") (str "POST")
          (Some [ (str "file", EntryFile zeybek);
                  (str "name", EntryString (trim (str "zeybek")));
                  (str "type", EntryString (typeTag Music)) ])].
Proof.
  split; [reflexivity|]. split; [left; reflexivity|]. split; [reflexivity|].
  split; [reflexivity|]. split; [discriminate|].
  apply (select_then_submit Music (initialPage Music) (Some [zeybek]) zeybek
           (str "zeybek") (str "mp3")); try reflexivity.
  - left; reflexivity.
  - discriminate.
Defined.

(** X6: a file whose name has nothing but white space before its final
    extension (the name [.mp3], say) is accepted with an empty or blank
    draft name: the file is selected, the upload button stays disabled, and
    a submit sends nothing and shows the destructive toast. *)
Theorem select_blank_base_blocks_submit
    (k : PageKind) (p : Page) (files : option (list File.t)) (file : File.t)
    (base e : jsstring) :
  firstFile files = Some file ->
  In (File.type file) allowedTypes ->
  File.name file = base ++ dot :: e ->
  ExtSpec.isExt e = true ->
  forallb isWhiteSpace base = true ->
  selectedFile (after (handleFileSelect files p)) = Some file
  /\ uploadDisabled (after (handleFileSelect files p)) = true
  /\ trace (handleUpload k (after (handleFileSelect files p)))
     = [EToast (errorToast (str "Lütfen dosya seçin ve isim girin"))].
Proof.
  intros Hf Ht En He Hb. apply includes_In in Ht. apply trim_nil in Hb.
  rewrite (handleFileSelect_accept files file p Hf Ht). unfold after. cbn [fst snd].
  rewrite En, (replaceExt_app base e He). split; [reflexivity|]. split.
  - unfold uploadDisabled. cbn -[trim]. now rewrite Hb.
  - rewrite handleUpload_blocked; [reflexivity|]. right. exact Hb.
Qed.

Lemma select_blank_base_blocks_submit_witness :
  firstFile (Some [ {| File.name := str ".mp3"; File.type := str "audio/mpeg" |} ])
  = Some {| File.name := str ".mp3"; File.type := str "audio/mpeg" |}
  /\ uploadDisabled
       (after (handleFileSelect
                 (Some [ {| File.name := str ".mp3"; File.type := str "audio/mpeg" |} ])
                 (initialPage Marches))) = true.
Proof.
  split; [reflexivity|].
  refine (proj1 (proj2 (select_blank_base_blocks_submit Marches (initialPage Marches)
            (Some [ {| File.name := str ".mp3"; File.type := str "audio/mpeg" |} ])
            {| File.name := str ".mp3"; File.type := str "audio/mpeg" |}
            [] (str "mp3") eq_refl _ eq_refl eq_refl eq_refl))).
  left. reflexivity.
Defined.

(** ** The query cache under the handlers *)

(** What a handler does to the cache: nothing, or the invalidation of the
    music-files key, or, for the completion of a fetch, the new data. *)
Lemma dispatch_cache (k : PageKind) (ev : Event) (p : Page) :
  (forall key d, ev <> QueryResolves key d) ->
  queryCache (after (dispatch k ev p)) = queryCache p
  \/ queryCache (after (dispatch k ev p))
     = revalidated [KStr (str "/api/music-files")] (queryCache p).
Proof.
  intros Hev.
  destruct ev as [files|v| |r|file|r|file|fav| | | | |key d]; cbn [dispatch].
  - left. destruct (firstFile files) as [f|] eqn:Hf.
    + destruct (includes allowedTypes (File.type f)) eqn:Ht.
      * now rewrite (handleFileSelect_accept files f p Hf Ht).
      * now rewrite (handleFileSelect_reject files f p Hf Ht).
    + now rewrite (handleFileSelect_none files p Hf).
  - now left.
  - left. destruct (selectedFile p) as [f|] eqn:Hf.
    + destruct (trim (marchName p)) as [|c s] eqn:Hn.
      * rewrite handleUpload_blocked by now right. reflexivity.
      * rewrite (handleUpload_sends k p f Hf) by now rewrite Hn. reflexivity.
    + rewrite handleUpload_blocked by now left. reflexivity.
  - destruct (uploadMutationFn r) as [j|e] eqn:Hr.
    + right. rewrite (uploadSettled_success k r j p Hr). unfold after. cbn [fst snd].
      now destruct (fileInputRef p).
    + left. now rewrite (uploadSettled_failure k r e p Hr).
  - now left.
  - destruct (deleteMutationFn r) as [[]|e] eqn:Hr.
    + right. now rewrite (deleteSettled_success k r p Hr).
    + left. now rewrite (deleteSettled_failure k r e p Hr).
  - left. unfold clickPlayUploaded, handlePlay, bind, get.
    destruct (isPlaying (playingAudio p) (MusicFile.id file)); [reflexivity|].
    now destruct (audioRef p).
  - left.
    assert (V : forall url id, queryCache (after (handlePlayVideo url id p)) = queryCache p).
    { intros url id. unfold handlePlayVideo, bind, get.
      destruct (isPlaying (playingVideo p) id); [reflexivity|].
      now destruct (videoRef p). }
    assert (F : forall fn id,
               queryCache (after (handlePlayFavorite k fn id p)) = queryCache p).
    { intros [fn|] id; cbn [handlePlayFavorite]; [|reflexivity].
      destruct (endsWith fn (str ".mp4")); [apply V|reflexivity]. }
    destruct k; cbn [clickFavorite]; [apply F|].
    destruct (Favorite.filename fav) as [fn|]; cbn [handlePlayFavorite orEmpty].
    + destruct (endsWith _ (str ".mp4")); [apply V|reflexivity].
    + reflexivity.
  - now left.
  - now left.
  - now left.
  - now left.
  - now destruct (Hev key d).
Qed.

Lemma find_key_map (key : QueryKey) (f : Query.t -> Query.t) (cache : list Query.t) :
  (forall q, Query.queryKey (f q) = Query.queryKey q) ->
  find (fun q => keyEqb (Query.queryKey q) key) (map f cache)
  = option_map f (find (fun q => keyEqb (Query.queryKey q) key) cache).
Proof.
  intros Hk. induction cache as [|q cache IH]; [reflexivity|].
  cbn [map find]. rewrite Hk. now destruct (keyEqb (Query.queryKey q) key).
Qed.

Lemma revalidated_data (key : QueryKey) (cache : list Query.t) :
  map Query.data (revalidated key cache) = map Query.data cache.
Proof.
  rewrite revalidated_map, map_map. apply map_ext. apply revalidate_data.
Qed.

(** X7: no optimistic update.  Whatever the event, unless it is the
    completion of a fetch, every query of the cache keeps its data, and the
    rows on display in the list of either page are the rows that were on
    display: a settled upload or delete, successful or not, changes what the
    list shows only through the refetch it starts. *)
Theorem rows_change_only_on_fetch (k k' : PageKind) (ev : Event) (p : Page) :
  (forall key d, ev <> QueryResolves key d) ->
  map Query.data (queryCache (after (dispatch k ev p))) = map Query.data (queryCache p)
  /\ uploadedFiles k' (after (dispatch k ev p)) = uploadedFiles k' p.
Proof.
  intros Hev. destruct (dispatch_cache k ev p Hev) as [E|E].
  - unfold uploadedFiles. now rewrite E.
  - unfold uploadedFiles. rewrite E. split; [apply revalidated_data|].
    rewrite revalidated_map, find_key_map.
    + destruct (find _ (queryCache p)) as [q|]; [|reflexivity]. cbn.
      now rewrite revalidate_data.
    + apply revalidate_queryKey.
Qed.

Lemma rows_change_only_on_fetch_witness :
  (forall key d, DeleteSettles (Response 204 None) <> QueryResolves key d)
  /\ uploadedFiles Marches
       (after (dispatch Marches (DeleteSettles (Response 204 None))
                 (initialPage Marches)))
     = uploadedFiles Marches (initialPage Marches).
Proof.
  assert (N : forall key d, DeleteSettles (Response 204 None) <> QueryResolves key d)
    by discriminate.
  split; [exact N|].
  exact (proj2 (rows_change_only_on_fetch Marches Marches
                  (DeleteSettles (Response 204 None)) (initialPage Marches) N)).
Defined.

(** The two successful completions do the same to the cache and start the
    same refetches. *)
Lemma success_invalidates (k : PageKind) (ev : Event) (p : Page) :
  (exists status,
      (200 <= status <= 299)%Z
      /\ ((exists body, ev = UploadSettles (Response status (Some body)))
          \/ (exists json, ev = DeleteSettles (Response status json)))) ->
  queryCache (after (dispatch k ev p))
  = revalidated [KStr (str "/api/music-files")] (queryCache p)
  /\ exists t,
       trace (dispatch k ev p)
       = refetches [KStr (str "/api/music-files")] (queryCache p) ++ [EToast t]
       /\ Toast.destructive t = false.
Proof.
  intros (status & Hs & Hev).
  assert (O : ok status = true).
  { unfold ok. destruct (Z.leb_spec 200 status); [|lia].
    destruct (Z.leb_spec status 299); [|lia]. reflexivity. }
  destruct Hev as [[j ->] | [json ->]]; cbn [dispatch].
  - rewrite (uploadSettled_success k _ j p); [|cbn; now rewrite O].
    unfold after, trace. cbn [fst snd]. split; [now destruct (fileInputRef p)|].
    eexists. split; [reflexivity|]. now destruct k.
  - rewrite (deleteSettled_success k _ p); [|cbn; now rewrite O].
    unfold after, trace. cbn [fst snd]. split; [reflexivity|].
    eexists. split; [reflexivity|]. now destruct k.
Qed.

(** A one-part key hits the queries whose key starts with that part. *)
Lemma hit_prefix (s : jsstring) (q : Query.t) :
  hit [KStr s] q = true <-> exists rest, Query.queryKey q = KStr s :: rest.
Proof.
  unfold hit. destruct (Query.queryKey q) as [|pa ra]; cbn.
  - split; [discriminate|]. now intros [rest H].
  - destruct pa as [x|fs]; cbn.
    + assert (R : partialMatchKey ra [] = true) by now destruct ra.
      rewrite R, andb_true_r, eqb_eq. split.
      * intros ->. now exists ra.
      * now intros [rest [= -> _]].
    + split; [discriminate|]. now intros [rest H].
Qed.

(** X8: how far the invalidation after a successful upload or delete
    reaches.  The list query of either page that is in the cache is marked
    invalidated, the one of the other page too; the queries for which a
    request starts are exactly the observed ones whose key starts with
    [/api/music-files] and that are idle or have data, a query whose first
    fetch is still out being left to it; a favorites query stays in the
    cache as it is and is never refetched. *)
Theorem invalidation_reach (k : PageKind) (ev : Event) (p : Page) :
  (exists status,
      (200 <= status <= 299)%Z
      /\ ((exists body, ev = UploadSettles (Response status (Some body)))
          \/ (exists json, ev = DeleteSettles (Response status json)))) ->
  (forall k' q,
      In q (queryCache p) -> Query.queryKey q = uploadedFilesKey k' ->
      exists q', In q' (queryCache (after (dispatch k ev p)))
                 /\ Query.queryKey q' = uploadedFilesKey k'
                 /\ Query.isInvalidated q' = true
                 /\ Query.data q' = Query.data q
                 /\ Query.active q' = Query.active q)
  /\ (forall k' q,
        In q (queryCache p) -> Query.queryKey q = favoritesKey k' ->
        In q (queryCache (after (dispatch k ev p))))
  /\ (forall key,
        In (ERefetch key) (trace (dispatch k ev p))
        <-> exists q rest,
              In q (queryCache p) /\ Query.queryKey q = key
              /\ key = KStr (str "/api/music-files") :: rest
              /\ Query.active q = true
              /\ (Query.fetchStatus q = FetchIdle \/ Query.data q <> NoData))
  /\ (forall k', ~ In (ERefetch (favoritesKey k')) (trace (dispatch k ev p))).
Proof.
  intros H. destruct (success_invalidates k ev p H) as (Ec & t & Et & _).
  rewrite Ec, Et.
  assert (R : forall key,
             In (ERefetch key)
                (refetches [KStr (str "/api/music-files")] (queryCache p)
                 ++ [EToast t])
             <-> exists q rest,
                   In q (queryCache p) /\ Query.queryKey q = key
                   /\ key = KStr (str "/api/music-files") :: rest
                   /\ Query.active q = true
                   /\ (Query.fetchStatus q = FetchIdle \/ Query.data q <> NoData)).
  { intros key. rewrite in_app_iff, refetches_In. split.
    - intros [(q & Hin & Hk & Hh & Ha & Hs)|[E|[]]]; [|discriminate].
      apply hit_prefix in Hh as [rest Hr]. apply startsRequest_iff in Hs.
      exists q, rest. repeat split; auto; congruence.
    - intros (q & rest & Hin & Hk & Hr & Ha & Hs). left. exists q.
      apply startsRequest_iff in Hs.
      repeat split; auto. apply hit_prefix. exists rest. congruence. }
  split; [|split; [|split; [exact R|]]].
  - intros k' q Hin Hk.
    exists (revalidate [KStr (str "/api/music-files")] q).
    rewrite revalidate_queryKey, revalidate_data, revalidate_active.
    rewrite (revalidate_isInvalidated _ _ (musicFiles_hits_list k' q Hk)).
    repeat split; try assumption. now apply revalidated_In.
  - intros k' q Hin Hk.
    pose proof (revalidated_In [KStr (str "/api/music-files")] _ q Hin) as HI.
    now rewrite (revalidate_miss _ _ (musicFiles_misses_favorites k' q Hk)) in HI.
  - intros k' HIn. apply R in HIn as (q & rest & _ & _ & E & _).
    destruct k'; discriminate.
Qed.

Lemma invalidation_reach_witness :
  (exists status,
      (200 <= status <= 299)%Z
      /\ ((exists body, UploadSettles (Response 201 (Some JNull))
                        = UploadSettles (Response status (Some body)))
          \/ (exists json, UploadSettles (Response 201 (Some JNull))
                           = DeleteSettles (Response status json))))
  /\ ~ In (ERefetch (uploadedFilesKey Music))
          (trace (dispatch Marches (UploadSettles (Response 201 (Some JNull)))
                    afterMusicVisit))
  /\ ~ In (ERefetch (favoritesKey Marches))
          (trace (dispatch Marches (UploadSettles (Response 201 (Some JNull)))
                    afterMusicVisit)).
Proof.
  assert (S : exists status,
             (200 <= status <= 299)%Z
             /\ ((exists body, UploadSettles (Response 201 (Some JNull))
                               = UploadSettles (Response status (Some body)))
                 \/ (exists json, UploadSettles (Response 201 (Some JNull))
                                  = DeleteSettles (Response status json)))).
  { exists 201%Z. split; [lia|]. left. now exists JNull. }
  split; [exact S|].
  destruct (invalidation_reach Marches (UploadSettles (Response 201 (Some JNull)))
              afterMusicVisit S) as (_ & _ & Req & Fav).
  split; [|exact (Fav Marches)].
  intros H. apply Req in H as (q & rest & Hin & Hk & _ & Ha & _).
  destruct Hin as [<-|[<-|[<-|[]]]]; discriminate.
Defined.

(** ** Case analysis on an event *)

Lemma clickFavorite_None_Marches (fav : Favorite.t) (p : Page) :
  Favorite.filename fav = None ->
  clickFavorite Marches fav p
  = (Throw (TypeError (str "Cannot read properties of undefined (reading 'endsWith')")),
     p, []).
Proof. intros H. unfold clickFavorite. now rewrite H. Qed.

Lemma clickFavorite_None_Music (fav : Favorite.t) (p : Page) :
  Favorite.filename fav = None ->
  clickFavorite Music fav p
  = (Normal tt, p, [EToast (infoToast (str " çalmak için gerçek dosya gerekiyor"))]).
Proof. intros H. unfold clickFavorite. now rewrite H. Qed.

Ltac video_cases p :=
  match goal with
  | |- context [handlePlayVideo ?url ?id p] =>
    let Hp := fresh "Hp" in
    let He := fresh "He" in
    let el := fresh "el" in
    destruct (isPlaying (playingVideo p) id) eqn:Hp;
    [ rewrite (handlePlayVideo_same url id p Hp)
    | destruct (videoRef p) as [el|] eqn:He;
      [ rewrite (handlePlayVideo_other url id p el Hp He)
      | rewrite (handlePlayVideo_detached url id p Hp He) ] ]
  end.

Ltac audio_cases p :=
  match goal with
  | |- context [handlePlay ?url ?id p] =>
    let Hp := fresh "Hp" in
    let He := fresh "He" in
    let el := fresh "el" in
    destruct (isPlaying (playingAudio p) id) eqn:Hp;
    [ rewrite (handlePlay_same url id p Hp)
    | destruct (audioRef p) as [el|] eqn:He;
      [ rewrite (handlePlay_other url id p el Hp He)
      | rewrite (handlePlay_detached url id p Hp He) ] ]
  end.

Ltac favorite_cases k p fav :=
  let fn := fresh "fn" in
  let Hfn := fresh "Hfn" in
  let Hmp4 := fresh "Hmp4" in
  destruct (Favorite.filename fav) as [fn|] eqn:Hfn;
  [ rewrite (clickFavorite_Some k fav fn p Hfn); cbn [handlePlayFavorite];
    destruct (endsWith fn (str ".mp4")) eqn:Hmp4; [video_cases p|]
  | destruct k;
    [ rewrite (clickFavorite_None_Marches fav p Hfn)
    | rewrite (clickFavorite_None_Music fav p Hfn) ] ].

Ltac event_cases k ev p :=
  let files := fresh "files" in
  let file := fresh "file" in
  let fav := fresh "fav" in
  let r := fresh "r" in
  let f := fresh "f" in
  let Hf := fresh "Hf" in
  let Ht := fresh "Ht" in
  let Hn := fresh "Hn" in
  let Hr := fresh "Hr" in
  let j := fresh "j" in
  let e := fresh "e" in
  let c := fresh "c" in
  let s := fresh "s" in
  destruct ev as [files|?| |r|file|r|file|fav| | | | |? ?]; cbn [dispatch];
  [ destruct (firstFile files) as [f|] eqn:Hf;
    [ destruct (includes allowedTypes (File.type f)) eqn:Ht;
      [ rewrite (handleFileSelect_accept files f p Hf Ht)
      | rewrite (handleFileSelect_reject files f p Hf Ht) ]
    | rewrite (handleFileSelect_none files p Hf) ]
  | idtac
  | destruct (selectedFile p) as [f|] eqn:Hf;
    [ destruct (trim (marchName p)) as [|c s] eqn:Hn;
      [ rewrite (handleUpload_blocked k p (or_intror Hn))
      | rewrite (handleUpload_sends k p f Hf)
          by (rewrite Hn; discriminate) ]
    | rewrite (handleUpload_blocked k p (or_introl Hf)) ]
  | destruct (uploadMutationFn r) as [j|e] eqn:Hr;
    [ rewrite (uploadSettled_success k r j p Hr)
    | rewrite (uploadSettled_failure k r e p Hr) ]
  | idtac
  | destruct (deleteMutationFn r) as [[]|e] eqn:Hr;
    [ rewrite (deleteSettled_success k r p Hr)
    | rewrite (deleteSettled_failure k r e p Hr) ]
  | unfold clickPlayUploaded; audio_cases p
  | favorite_cases k p fav
  | idtac | idtac | idtac | idtac | idtac ].

(** Unfolds the handlers that are one state write or one effect. *)
Ltac plain_events :=
  cbv [clickDelete deleteMutate deleteRequest audioOnEnded audioOnError
       videoOnEnded videoOnError queryResolved bind modify emit throw toast
       trace after completion fst snd];
  cbn [app].

(** ** What a handler may leave behind *)






(** ** Playback and the form do not meet *)



(** ** Toggles in a row *)

(** X13: two clicks on the same row are a stop.  On a mounted page, a row
    that is not playing, clicked twice, ends with the marker empty and the
    element paused on the URL of the row; this for the audio rows and for
    the video rows. *)
Theorem double_toggle_stops (k : PageKind) (p : Page) (url id : jsstring) :
  mounted k p ->
  (playingAudio p <> Some id ->
     playingAudio (after (handlePlay url id (after (handlePlay url id p)))) = None
     /\ audioRef (after (handlePlay url id (after (handlePlay url id p))))
        = Some {| Media.src := url; Media.paused := true |})
  /\ (playingVideo p <> Some id ->
     playingVideo (after (handlePlayVideo url id (after (handlePlayVideo url id p))))
     = None
     /\ videoRef (after (handlePlayVideo url id (after (handlePlayVideo url id p))))
        = Some {| Media.src := url; Media.paused := true |}).
Proof.
  intros (_ & Ha & Hv & _).
  destruct (audioRef p) as [a|] eqn:Ea; [clear Ha|contradiction].
  destruct (videoRef p) as [v|] eqn:Ev; [clear Hv|contradiction].
  split; intros Hp; apply isPlaying_false in Hp.
  - rewrite (handlePlay_other url id p a Hp Ea). unfold after at 2 4. cbn [fst snd].
    rewrite handlePlay_same; [now split|]. cbn. apply eqb_refl.
  - rewrite (handlePlayVideo_other url id p v Hp Ev). unfold after at 2 4. cbn [fst snd].
    rewrite handlePlayVideo_same; [now split|]. cbn. apply eqb_refl.
Qed.

Lemma double_toggle_stops_witness :
  mounted Marches (initialPage Marches)
  /\ playingAudio
       (after (handlePlay (str "/uploads/a.mp3") (str "7")
                 (after (handlePlay (str "/uploads/a.mp3") (str "7")
                           (initialPage Marches))))) = None.
Proof.
  split; [mounted_now|].
  assert (M : mounted Marches (initialPage Marches)) by mounted_now.
  destruct (double_toggle_stops Marches (initialPage Marches)
              (str "/uploads/a.mp3") (str "7") M) as [Audio _].
  apply Audio. discriminate.
Defined.

(** ** Where the media come from *)

Lemma pause_src (o : option Media.t) (el : Media.t) :
  option_map Media.pause o = Some el ->
  exists el0, o = Some el0 /\ Media.src el = Media.src el0.
Proof.
  destruct o as [el0|]; [|discriminate]. intros [= <-]. now exists el0.
Qed.

Ltac source_cases IA IV :=
  let el := fresh "el" in
  let E := fresh "E" in
  intros el E; cbn in E;
  first
    [ exact (IA el E)
    | exact (IV el E)
    | apply pause_src in E as (? & E & ->); first [exact (IA _ E)|exact (IV _ E)]
    | exfalso; congruence
    | injection E as <-; right; eexists; cbn;
      first [reflexivity|split; [reflexivity|assumption]] ].

Lemma assetSources_step (k : PageKind) (ev : Event) (p : Page) :
  assetSources k p -> assetSources k (after (dispatch k ev p)).
Proof.
  intros [IA IV].
  event_cases k ev p; plain_events;
    try (destruct (fileInputRef p)); split; source_cases IA IV.
Qed.

(** X14: the page plays only its own assets.  In every state a mounted page
    goes through, the audio element has no source or a source under
    [/uploads/], and the video element has no source or an [.mp4] file under
    the video directory of the page. *)
Theorem page_plays_only_its_assets (k : PageKind) (p : Page) :
  reachable k p -> assetSources k p.
Proof.
  induction 1 as [|p ev _ IH]; [|exact (assetSources_step k ev p IH)].
  split; intros el [= <-]; now left.
Qed.

Lemma page_plays_only_its_assets_witness :
  reachable Marches onuncuYilPlaying /\ assetSources Marches onuncuYilPlaying.
Proof.
  assert (R : reachable Marches onuncuYilPlaying) by apply reach_step, reach_init.
  split; [exact R|]. exact (page_plays_only_its_assets Marches onuncuYilPlaying R).
Defined.

Ltac marker_cases IA IV :=
  let id := fresh "id" in
  let E := fresh "E" in
  intros id E; cbn in E;
  first
    [ exact (IA id E)
    | exact (IV id E)
    | exfalso; congruence
    | exfalso; destruct (IA id E) as (? & ? & ? & _); discriminate
    | exfalso; destruct (IV id E) as (? & ? & ? & _); discriminate
    | eexists; eexists; split; [reflexivity|]; cbn;
      first [reflexivity|split; [reflexivity|assumption]] ].

Lemma markersHaveSource_step (k : PageKind) (ev : Event) (p : Page) :
  markersHaveSource k p -> markersHaveSource k (after (dispatch k ev p)).
Proof.
  intros [IA IV].
  event_cases k ev p; plain_events;
    try (destruct (fileInputRef p)); split; marker_cases IA IV.
Qed.

(** X15: no marker without a source.  In every state a mounted page goes
    through, a marker that holds an id goes with an attached element whose
    source is set: a file under [/uploads/] for the audio marker, an [.mp4]
    file under the video directory of the page for the video marker. *)
Theorem marker_means_source (k : PageKind) (p : Page) :
  reachable k p -> markersHaveSource k p.
Proof.
  induction 1 as [|p ev _ IH]; [|exact (markersHaveSource_step k ev p IH)].
  split; intros id; discriminate.
Qed.

Lemma marker_means_source_witness :
  reachable Marches onuncuYilPlaying /\ markersHaveSource Marches onuncuYilPlaying.
Proof.
  assert (R : reachable Marches onuncuYilPlaying) by apply reach_step, reach_init.
  split; [exact R|]. exact (marker_means_source Marches onuncuYilPlaying R).
Defined.

(** ** Which favorites play *)

(** [endsWith] holds of the strings that are some text followed by the
    suffix. *)
Lemma endsWith_iff (s t : jsstring) :
  endsWith s t = true <-> exists base, s = base ++ t.
Proof.
  unfold endsWith. rewrite andb_true_iff, Nat.leb_le, eqb_eq. split.
  - intros [_ E]. exists (firstn (List.length s - List.length t) s).
    pose proof (firstn_skipn (List.length s - List.length t) s) as F.
    rewrite E in F. now symmetry.
  - intros [base ->]. rewrite length_app. split; [lia|].
    replace (List.length base + List.length t - List.length t)%nat
      with (List.length base + 0)%nat by lia.
    rewrite skipn_app, Nat.add_0_r, skipn_all.
    replace (List.length base - List.length base)%nat with 0%nat by lia.
    reflexivity.
Qed.

(** X16: which favorites play.  A favorite with a filename is handed to the
    video toggle exactly when the filename is some text followed by [.mp4],
    in these very code units (lower case); any other filename, a shorter one
    or one in [.MP4] among them, gets the informational toast, and the page
    is left as it was. *)
Theorem favorite_plays_iff_mp4 (k : PageKind) (fav : Favorite.t) (fn : jsstring) (p : Page) :
  Favorite.filename fav = Some fn ->
  ((exists base, fn = base ++ str ".mp4") ->
     clickFavorite k fav p
     = handlePlayVideo (videoDir k ++ fn) (Favorite.id fav) p
     /\ trace (clickFavorite k fav p) = [])
  /\ (~ (exists base, fn = base ++ str ".mp4") ->
     clickFavorite k fav p
     = (Normal tt, p,
        [EToast (infoToast (fn ++ str " çalmak için gerçek dosya gerekiyor"))])).
Proof.
  intros Hf. rewrite (clickFavorite_Some k fav fn p Hf). cbn [handlePlayFavorite].
  split; intros H.
  - apply endsWith_iff in H. rewrite H. split; [reflexivity|].
    unfold handlePlayVideo, bind, get.
    destruct (isPlaying (playingVideo p) (Favorite.id fav)); [reflexivity|].
    now destruct (videoRef p).
  - destruct (endsWith fn (str ".mp4")) eqn:E; [|reflexivity].
    apply endsWith_iff in E. contradiction.
Qed.

Lemma favorite_plays_iff_mp4_witness :
  Favorite.filename onuncuYil = Some (str "onuncu_yil.mp4")
  /\ trace (clickFavorite Music onuncuYil (initialPage Music)) = [].
Proof.
  split; [reflexivity|].
  destruct (favorite_plays_iff_mp4 Music onuncuYil (str "onuncu_yil.mp4")
              (initialPage Music) eq_refl) as [Plays _].
  apply Plays. exists (str "onuncu_yil"). reflexivity.
Defined.

(** ** What no handler undoes *)

(** X17: no handler detaches an element or drops a query.  Whatever the
    event, a ref that holds an element holds one afterwards, and the cache
    has the same queries, key by key, with the same observers: queries are
    invalidated or given data, never added, removed or unobserved. *)
Theorem handlers_keep_elements_and_queries (k : PageKind) (ev : Event) (p : Page) :
  (fileInputRef p <> None -> fileInputRef (after (dispatch k ev p)) <> None)
  /\ (audioRef p <> None -> audioRef (after (dispatch k ev p)) <> None)
  /\ (videoRef p <> None -> videoRef (after (dispatch k ev p)) <> None)
  /\ map Query.queryKey (queryCache (after (dispatch k ev p)))
     = map Query.queryKey (queryCache p)
  /\ map Query.active (queryCache (after (dispatch k ev p)))
     = map Query.active (queryCache p).
Proof.
  destruct (dispatch_sameMount k ev p) as (Hf & Ha & Hv & f & Hk & Hact & Hc).
  repeat split; try assumption; rewrite Hc, map_map; now apply map_ext.
Qed.

(** ** Deleting *)

Lemma delete_pending_round_trip (p : Page) :
  deleteIsPending p = false ->
  with_deleteIsPending false (with_deleteIsPending true p) = p.
Proof. destruct p. cbn. now intros ->. Qed.

(** X18: a failed delete gives the page back as it was before the click.
    While the request is out the delete buttons of all rows are disabled;
    when it fails (transport failure or a status outside 200-299) the page is
    the one the click started from, and the one effect is the destructive
    toast. *)
Theorem delete_failure_round_trip
    (k : PageKind) (p : Page) (file : MusicFile.t) (r : FetchResult) :
  deleteDisabled p = false ->
  r = NetworkError
  \/ (exists status json, r = Response status json /\ ~ (200 <= status <= 299)%Z) ->
  deleteDisabled (after (clickDelete file p)) = true
  /\ after (deleteSettled k r (after (clickDelete file p))) = p
  /\ trace (deleteSettled k r (after (clickDelete file p)))
     = [EToast (errorToast (str "Dosya silinemedi"))].
Proof.
  intros Hp H. split; [reflexivity|].
  assert (F : r = NetworkError
              \/ exists status json, r = Response status json /\ ok status = false).
  { destruct H as [H|(status & json & -> & H)]; [now left|right].
    exists status, json. split; [reflexivity|]. unfold ok.
    destruct (Z.leb_spec 200 status); [|reflexivity].
    destruct (Z.leb_spec status 299); [lia|reflexivity]. }
  destruct (deleteMutationFn_rejects r F) as [e He].
  rewrite (deleteSettled_failure k r e _ He). unfold after, trace. cbn [fst snd].
  split; [|reflexivity].
  change (with_deleteIsPending false (with_deleteIsPending true p) = p).
  now apply delete_pending_round_trip.
Qed.

Lemma delete_failure_round_trip_witness :
  deleteDisabled draftPage = false
  /\ (Response 404 None = NetworkError
      \/ exists status json,
           Response 404 None = Response status json /\ ~ (200 <= status <= 299)%Z)
  /\ after (deleteSettled Marches (Response 404 None)
              (after (clickDelete file42 draftPage))) = draftPage.
Proof.
  assert (F : Response 404 None = NetworkError
              \/ exists status json,
                   Response 404 None = Response status json
                   /\ ~ (200 <= status <= 299)%Z).
  { right. exists 404%Z, None. split; [reflexivity|lia]. }
  split; [reflexivity|]. split; [exact F|].
  exact (proj1 (proj2 (delete_failure_round_trip Marches draftPage file42
                         (Response 404 None) eq_refl F))).
Defined.

(** ** The icons of the rows *)

(** X19: the icons of the uploaded rows follow the click.  On a mounted
    page, a click on a row that shows the play icon makes the rows with its
    id show the pause icon and every other uploaded row the play icon, and
    leaves the icons of the favorites as they are; a second click on the row
    puts the play icon on every uploaded row. *)
Theorem uploaded_row_icons (k : PageKind) (p : Page) (file : MusicFile.t) :
  mounted k p ->
  uploadedIcon p file = PlayIcon ->
  uploadedIcon (after (clickPlayUploaded file p)) file = PauseIcon
  /\ (forall other,
        MusicFile.id other <> MusicFile.id file ->
        uploadedIcon (after (clickPlayUploaded file p)) other = PlayIcon)
  /\ (forall fav,
        favoriteIcon (after (clickPlayUploaded file p)) fav = favoriteIcon p fav)
  /\ (forall other,
        uploadedIcon
          (after (clickPlayUploaded file (after (clickPlayUploaded file p)))) other
        = PlayIcon).
Proof.
  intros (_ & Ha & _) Hi.
  destruct (audioRef p) as [a|] eqn:Ea; [clear Ha|contradiction].
  assert (Hp : isPlaying (playingAudio p) (MusicFile.id file) = false).
  { unfold uploadedIcon in Hi.
    now destruct (isPlaying (playingAudio p) (MusicFile.id file)). }
  unfold clickPlayUploaded.
  rewrite (handlePlay_other _ _ p a Hp Ea). unfold after at 1 2 3 5. cbn [fst snd].
  split; [|split; [|split]].
  - unfold uploadedIcon. cbn. now rewrite eqb_refl.
  - intros other Ho. unfold uploadedIcon. cbn.
    destruct (JsString.eqb (MusicFile.id file) (MusicFile.id other)) eqn:E;
      [|reflexivity].
    apply eqb_eq in E. congruence.
  - reflexivity.
  - intros other. rewrite handlePlay_same; [reflexivity|]. cbn. apply eqb_refl.
Qed.

Lemma uploaded_row_icons_witness :
  mounted Marches (initialPage Marches)
  /\ uploadedIcon (initialPage Marches) file42 = PlayIcon
  /\ uploadedIcon (after (clickPlayUploaded file42 (initialPage Marches))) file42
     = PauseIcon.
Proof.
  split; [mounted_now|]. split; [reflexivity|].
  assert (M : mounted Marches (initialPage Marches)) by mounted_now.
  exact (proj1 (uploaded_row_icons Marches (initialPage Marches) file42 M eq_refl)).
Defined.

(** ** The rows after a fetch *)

Lemma combine_eqb {A} (eqbA : A -> A -> bool) (l1 l2 : list A) :
  (forall x y, eqbA x y = true <-> x = y) ->
  (List.length l1 =? List.length l2)%nat
  && forallb (fun ab => eqbA (fst ab) (snd ab)) (combine l1 l2) = true
  <-> l1 = l2.
Proof.
  intros Hspec. revert l2. induction l1 as [|x l1 IH]; intros [|y l2]; cbn;
    try (split; [discriminate|congruence]); [tauto|].
  specialize (IH l2). cbn in IH.
  destruct (eqbA x y) eqn:E; cbn.
  - apply Hspec in E. subst. rewrite IH. split; congruence.
  - rewrite andb_false_r. split; [discriminate|]. intros [= -> _].
    assert (T : eqbA y y = true) by now apply Hspec. congruence.
Qed.

Lemma keyPartEqb_eq (a b : KeyPart) : keyPartEqb a b = true <-> a = b.
Proof.
  destruct a as [x|fa], b as [y|fb]; cbn; try (split; [discriminate|congruence]).
  - rewrite eqb_eq. split; congruence.
  - change (forallb _ (combine fa fb))
      with (forallb (fun ab => (fun u v : jsstring * jsstring =>
                                  JsString.eqb (fst u) (fst v)
                                  && JsString.eqb (snd u) (snd v)) (fst ab) (snd ab))
                    (combine fa fb)).
    rewrite combine_eqb; [split; congruence|].
    intros [u1 u2] [v1 v2]. cbn. rewrite andb_true_iff, !eqb_eq. split.
    + now intros [-> ->].
    + now intros [= -> ->].
Qed.

(** [keyEqb] decides the equality of keys. *)
Lemma keyEqb_eq (a b : QueryKey) : keyEqb a b = true <-> a = b.
Proof. unfold keyEqb. apply combine_eqb. exact keyPartEqb_eq. Qed.

Lemma find_list_query (k : PageKind) (p : Page) :
  listObserved k p ->
  exists q, find (fun q => keyEqb (Query.queryKey q) (uploadedFilesKey k)) (queryCache p)
            = Some q
            /\ Query.queryKey q = uploadedFilesKey k.
Proof.
  intros (q0 & Hin & Hk & _).
  destruct (find (fun q => keyEqb (Query.queryKey q) (uploadedFilesKey k)) (queryCache p))
    as [q|] eqn:F.
  - exists q. split; [reflexivity|]. apply find_some in F as [_ F].
    now apply keyEqb_eq.
  - exfalso. pose proof (find_none _ _ F q0 Hin) as N. cbn in N.
    rewrite Hk in N. assert (T : keyEqb (uploadedFilesKey k) (uploadedFilesKey k) = true)
      by now apply keyEqb_eq.
    congruence.
Qed.

(** X20: the rows after a fetch.  On a mounted page, when a fetch of the
    list query of the page completes with rows, these are the rows on
    display; when a fetch of any other query completes (the list of the
    other page, a favorites list), the rows on display are the ones that
    were. *)
Theorem rows_after_fetch (k : PageKind) (p : Page) :
  mounted k p ->
  (forall rows,
      uploadedFiles k
        (after (dispatch k (QueryResolves (uploadedFilesKey k) (Files rows)) p))
      = rows)
  /\ (forall key d,
        key <> uploadedFilesKey k ->
        uploadedFiles k (after (dispatch k (QueryResolves key d) p))
        = uploadedFiles k p).
Proof.
  intros (_ & _ & _ & L). destruct (find_list_query k p L) as (q & F & Hk).
  assert (R : forall key d,
             uploadedFiles k (after (dispatch k (QueryResolves key d) p))
             = match Query.data
                       (if keyEqb (Query.queryKey q) key then Query.resolve d q else q)
               with Files rows => rows | _ => [] end).
  { intros key d. unfold uploadedFiles. cbn [dispatch].
    unfold queryResolved, modify, after. cbn [fst snd queryCache with_queryCache].
    rewrite find_key_map.
    - now rewrite F.
    - intros q'. now destruct (keyEqb (Query.queryKey q') key). }
  split.
  - intros rows. rewrite R, Hk.
    assert (T : keyEqb (uploadedFilesKey k) (uploadedFilesKey k) = true)
      by now apply keyEqb_eq.
    now rewrite T.
  - intros key d Hkey. rewrite R, Hk.
    destruct (keyEqb (uploadedFilesKey k) key) eqn:E.
    + apply keyEqb_eq in E. congruence.
    + unfold uploadedFiles. now rewrite F.
Qed.

Lemma rows_after_fetch_witness :
  mounted Marches (initialPage Marches)
  /\ uploadedFiles Marches
       (after (dispatch Marches
                 (QueryResolves (uploadedFilesKey Marches) (Files [file42]))
                 (initialPage Marches)))
     = [file42].
Proof.
  split; [mounted_now|].
  assert (M : mounted Marches (initialPage Marches)) by mounted_now.
  exact (proj1 (rows_after_fetch Marches (initialPage Marches) M) [file42]).
Defined.
